(** * SecureShare icon restorer: [restore_icons.py]

    A shallow embedding of the two functions of [restore_icons.py],
    [create_geometric_icon] and [generate_icons], and the properties of
    them that the specification states.

    The model comes first:
    - [F64]      the binary64 arithmetic the script relies on (Python floats),
                 with [F64_reference] to compare it with the Standard Library;
    - [Py]       Python numbers ([int] and [float]) and their operators;
    - [Draw]     the Pillow objects the script manipulates: an RGBA image and
                 the drawing calls issued on it;
    - [Icon]     [create_geometric_icon];
    - [Svg]      the vector document and a reader for it;
    - [Driver]   the file system and [generate_icons].

    The properties follow: facts about each layer ([F64_facts], [Py_facts],
    [Draw_facts], [Icon_facts], [Driver_facts]) and then the statements of the
    specification, [Icon_spec] for the icons and [Driver_spec] for the run.
    Further behaviour of the two functions is in [Driver_behaviour] (how a run
    ends, what it prints and what it leaves alone, with [Report] and
    [Driver_runs]) and [Icon_behaviour] (where the calls lie on the canvas and
    which colours a pixel can hold, with [Extent] and [Extent_facts]). *)

From Stdlib Require Import ZArith List Bool Lia Ascii String.
From Stdlib Require Import Floats.SpecFloat.
From stdpp Require Import gmap strings pretty.

Local Open Scope Z_scope.

(* ===================================================================== *)
(** ** Binary64 numbers *)
(* ===================================================================== *)

(** A finite binary64 value is a dyadic number [Fnum * 2 ^ Fexp].  Values are
    kept in lowest terms ([Fnum] odd, or zero with exponent zero), so two
    floats are equal exactly when their values are.  Every operation computes
    the exact result and rounds it to 53 significant bits, ties to even, as
    IEEE 754 prescribes.  The exponent range is left unbounded: the model
    agrees with binary64 on magnitudes between 2^-1022 and 2^1024, far beyond
    anything an image size can produce. *)
Module F64.

Record float : Set := Float { Fnum : Z; Fexp : Z }.

Definition prec : Z := 53.

(** [strip p e] removes the trailing zero bits of [p], counting them in [e]. *)
Fixpoint strip (p : positive) (e : Z) : positive * Z :=
  match p with
  | xO p' => strip p' (e + 1)
  | _ => (p, e)
  end.

Definition norm (m e : Z) : float :=
  match m with
  | Z0 => Float 0 0
  | Zpos p => let (q, e') := strip p e in Float (Zpos q) e'
  | Zneg p => let (q, e') := strip p e in Float (Zneg q) e'
  end.

(** Round [m * 2 ^ e] to nearest, ties to even, keeping [prec] bits. *)
Definition round (m e : Z) : float :=
  let a := Z.abs m in
  let s := Z.log2 a + 1 - prec in
  if s <=? 0 then norm m e
  else
    let q := a / 2 ^ s in
    let r := a mod 2 ^ s in
    let h := 2 ^ (s - 1) in
    let q' := if (h <? r) || ((r =? h) && Z.odd q) then q + 1 else q in
    norm (Z.sgn m * q') (e + s).

(** [float(n)] for a Python [int]. *)
Definition of_Z (n : Z) : float := round n 0.

Definition mul (a b : float) : float :=
  round (Fnum a * Fnum b) (Fexp a + Fexp b).

Definition add (a b : float) : float :=
  let e := Z.min (Fexp a) (Fexp b) in
  round (Fnum a * 2 ^ (Fexp a - e) + Fnum b * 2 ^ (Fexp b - e)) e.

Definition opp (a : float) : float := Float (- Fnum a) (Fexp a).

Definition sub (a b : float) : float := add a (opp b).

(** [a // b] on floats: the floor of the exact quotient, as a float.  Python
    raises [ZeroDivisionError] when [b] is zero; every divisor in the script
    is a non-zero literal, and the model returns zero there. *)
Definition floordiv (a b : float) : float :=
  let e := Z.min (Fexp a) (Fexp b) in
  round ((Fnum a * 2 ^ (Fexp a - e)) / (Fnum b * 2 ^ (Fexp b - e))) 0.

(** [int(a)]: truncation toward zero. *)
Definition trunc (a : float) : Z :=
  if 0 <=? Fexp a then Fnum a * 2 ^ Fexp a
  else Z.quot (Fnum a) (2 ^ (- Fexp a)).

(** The integer a float denotes, when it denotes one. *)
Definition to_Z (a : float) : option Z :=
  if 0 <=? Fexp a then Some (Fnum a * 2 ^ Fexp a)
  else if Fnum a mod 2 ^ (- Fexp a) =? 0 then Some (Fnum a / 2 ^ (- Fexp a))
  else None.

(** [a] denotes the integer [z]. *)
Definition denotes (a : float) (z : Z) : Prop :=
  0 <= Fexp a /\ Fnum a * 2 ^ Fexp a = z.

(** Comparisons of a float with an integer. *)
Definition leb_Z (a : float) (z : Z) : bool :=
  if 0 <=? Fexp a then Fnum a * 2 ^ Fexp a <=? z
  else Fnum a <=? z * 2 ^ (- Fexp a).

Definition Z_leb (z : Z) (a : float) : bool :=
  if 0 <=? Fexp a then z <=? Fnum a * 2 ^ Fexp a
  else z * 2 ^ (- Fexp a) <=? Fnum a.

(** The literals of the script.  [0.7] is [0x1.6666666666666p-1] and [0.4] is
    [0x1.999999999999ap-2]; [0.5] and [2.5] are exact. *)
Definition c0_7 : float := Float 3152519739159347 (-52).
Definition c0_4 : float := Float 3602879701896397 (-53).
Definition c0_5 : float := Float 1 (-1).
Definition c2_5 : float := Float 5 (-1).

End F64.

(** *** The Standard Library's IEEE 754 as a reference

    [SpecFloat] implements binary floating point on sign, mantissa and
    exponent; [of_spec] reads its finite values as dyadic numbers, so that the
    operations of [F64] can be compared with it. *)
Module F64_reference.

Definition of_spec (x : spec_float) : option F64.float :=
  match x with
  | S754_zero _ => Some (F64.Float 0 0)
  | S754_finite s m e => Some (F64.norm (if s then Zneg m else Zpos m) e)
  | _ => None
  end.

Definition b64 (n : Z) : spec_float := binary_normalize 53 1024 n 0 false.

Definition s0_4 : spec_float := S754_finite false 7205759403792794 (-54).
Definition s0_7 : spec_float := S754_finite false 6305039478318694 (-53).

Definition same (x : spec_float) (a : F64.float) : bool :=
  match of_spec x with
  | Some b => (F64.Fnum a =? F64.Fnum b) && (F64.Fexp a =? F64.Fexp b)
  | None => false
  end.

(** Conversion, the two inexact products of the script, and sums and
    differences of an integer and a fraction, at [n]. *)
Definition agree (n : Z) : bool :=
  same (b64 n) (F64.of_Z n) &&
  same (SFmul 53 1024 (b64 n) s0_4) (F64.mul (F64.of_Z n) F64.c0_4) &&
  same (SFmul 53 1024 (b64 n) s0_7) (F64.mul (F64.of_Z n) F64.c0_7) &&
  same (SFadd 53 1024 (b64 n) (SFmul 53 1024 (b64 (n + 3)) s0_7))
       (F64.add (F64.of_Z n) (F64.mul (F64.of_Z (n + 3)) F64.c0_7)) &&
  same (SFsub 53 1024 (b64 n) (SFmul 53 1024 (b64 (n + 3)) s0_7))
       (F64.sub (F64.of_Z n) (F64.mul (F64.of_Z (n + 3)) F64.c0_7)).

Definition range (lo : Z) (n : nat) : list Z :=
  map (fun i => lo + Z.of_nat i) (seq 0 n).

End F64_reference.

(* ===================================================================== *)
(** ** Python numbers *)
(* ===================================================================== *)

Module Py.

Inductive num : Set :=
| PInt (z : Z)
| PFloat (f : F64.float).

Definition to_float (a : num) : F64.float :=
  match a with
  | PInt z => F64.of_Z z
  | PFloat f => f
  end.

Definition add (a b : num) : num :=
  match a, b with
  | PInt x, PInt y => PInt (x + y)
  | _, _ => PFloat (F64.add (to_float a) (to_float b))
  end.

Definition sub (a b : num) : num :=
  match a, b with
  | PInt x, PInt y => PInt (x - y)
  | _, _ => PFloat (F64.sub (to_float a) (to_float b))
  end.

Definition mul (a b : num) : num :=
  match a, b with
  | PInt x, PInt y => PInt (x * y)
  | _, _ => PFloat (F64.mul (to_float a) (to_float b))
  end.

(** [a // b].  On integers Python floors, as [Z.div] does. *)
Definition floordiv (a b : num) : num :=
  match a, b with
  | PInt x, PInt y => PInt (x / y)
  | _, _ => PFloat (F64.floordiv (to_float a) (to_float b))
  end.

(** [int(a)]. *)
Definition int (a : num) : num :=
  match a with
  | PInt z => PInt z
  | PFloat f => PInt (F64.trunc f)
  end.

(** The integer a number denotes, when it denotes one. *)
Definition to_Z (a : num) : option Z :=
  match a with
  | PInt z => Some z
  | PFloat f => F64.to_Z f
  end.

Definition integral (a : num) : Prop := is_Some (to_Z a).

(** An [int], or a float with no fractional bits. *)
Definition whole (a : num) : Prop :=
  match a with
  | PInt _ => True
  | PFloat f => 0 <= F64.Fexp f
  end.

(** The float that denotes the integer [z]. *)
Definition Fz (z : Z) : num := PFloat (F64.norm z 0).

Definition leb_Z (a : num) (z : Z) : bool :=
  match a with
  | PInt x => x <=? z
  | PFloat f => F64.leb_Z f z
  end.

Definition Z_leb (z : Z) (a : num) : bool :=
  match a with
  | PInt x => z <=? x
  | PFloat f => F64.Z_leb z f
  end.

Declare Scope py_scope.
Delimit Scope py_scope with py.
Bind Scope py_scope with num.
Notation "a + b" := (add a b) : py_scope.
Notation "a - b" := (sub a b) : py_scope.
Notation "a * b" := (mul a b) : py_scope.
Notation "a // b" := (floordiv a b) (at level 40, left associativity) : py_scope.

Coercion PInt : Z >-> num.

End Py.

(* ===================================================================== *)
(** ** Pillow: images and drawing calls *)
(* ===================================================================== *)

(** The script builds every icon through Pillow: [Image.new] makes a canvas
    and the methods of [ImageDraw.Draw] paint on it.  The canvas is modelled by
    its mode, size and initial colour together with the drawing calls issued on
    it, in order.  Which pixels a call paints is decided by Pillow's rasteriser,
    a parameter here; [confined] below states the one fact about it that is
    used. *)
Module Draw.

Definition color : Set := (Z * Z * Z * Z)%type.

Definition alpha (c : color) : Z := snd c.

Inductive primitive : Set :=
| Rectangle (xy : list Py.num) (fill : color)
| Polygon (xy : list (Py.num * Py.num)) (fill : color)
| Line (xy : list Py.num) (fill : color) (width : Z)
| Arc (xy : list Py.num) (start stop : Z) (fill : color) (width : Z).

Record Image : Set := mkImage {
  mode : string;
  size : Z * Z;
  background : color;
  drawn : list primitive
}.

(** [Image.new(mode, size, color)] *)
Definition new (m : string) (sz : Z * Z) (c : color) : Image :=
  mkImage m sz c [].

Definition paint (im : Image) (p : primitive) : Image :=
  mkImage (mode im) (size im) (background im) (drawn im ++ [p]).

(** [draw.rectangle(xy, fill=...)], [draw.polygon(xy, fill=...)],
    [draw.line(xy, fill=..., width=...)] and
    [draw.arc(xy, start, end, fill=..., width=...)], where [draw] is the
    [ImageDraw.Draw] of the image. *)
Definition rectangle (im : Image) (xy : list Py.num) (fill : color) : Image :=
  paint im (Rectangle xy fill).

Definition polygon (im : Image) (xy : list (Py.num * Py.num)) (fill : color) : Image :=
  paint im (Polygon xy fill).

Definition line (im : Image) (xy : list Py.num) (fill : color) (width : Z) : Image :=
  paint im (Line xy fill width).

Definition arc (im : Image) (xy : list Py.num) (start stop : Z) (fill : color)
    (width : Z) : Image :=
  paint im (Arc xy start stop fill width).

(** [d] is a lighter tint than [c]: each of red, green and blue is larger. *)
Definition lighter (c d : color) : Prop :=
  let '(r, g, b, _) := c in
  let '(r', g', b', _) := d in
  r < r' /\ g < g' /\ b < b'.

Definition fill_of (p : primitive) : color :=
  match p with
  | Rectangle _ c | Polygon _ c | Line _ c _ | Arc _ _ _ c _ => c
  end.

(** A flat coordinate list [x0, y0, x1, y1, ...] read as points. *)
Fixpoint points (xy : list Py.num) : list (Py.num * Py.num) :=
  match xy with
  | x :: y :: rest => (x, y) :: points rest
  | _ => []
  end.

(** The points a call is given: the corners of a rectangle or of the box of
    an arc, the vertices of a polygon, the ends of a line. *)
Definition control_points (p : primitive) : list (Py.num * Py.num) :=
  match p with
  | Rectangle xy _ | Line xy _ _ | Arc xy _ _ _ _ => points xy
  | Polygon xy _ => xy
  end.

Definition coordinates (p : primitive) : list Py.num :=
  flat_map (fun q => [fst q; snd q]) (control_points p).

(** A point with integer coordinates, when both are integral. *)
Definition zpoint (q : Py.num * Py.num) : option (Z * Z) :=
  match Py.to_Z (fst q), Py.to_Z (snd q) with
  | Some x, Some y => Some (x, y)
  | _, _ => None
  end.

Inductive kind : Set := KRectangle | KPolygon | KLine | KArc.

Definition kind_of (p : primitive) : kind :=
  match p with
  | Rectangle _ _ => KRectangle
  | Polygon _ _ => KPolygon
  | Line _ _ _ => KLine
  | Arc _ _ _ _ _ => KArc
  end.

Definition is_kind (k : kind) (p : primitive) : bool :=
  match k, kind_of p with
  | KRectangle, KRectangle | KPolygon, KPolygon | KLine, KLine | KArc, KArc => true
  | _, _ => false
  end.

(** [draw.arc] cuts the arc out of the ellipse inscribed in the box
    [x0, y0, x1, y1] it is given.  The arc is half of a circle when it spans
    180 degrees and the box is as wide as it is high. *)
Definition semicircular (p : primitive) : bool :=
  match p with
  | Arc xy start stop _ _ =>
      (stop - start =? 180) &&
      match map zpoint (points xy) with
      | [Some (x0, y0); Some (x1, y1)] => x1 - x0 =? y1 - y0
      | _ => false
      end
  | _ => false
  end.

(** Pixel [(x, y)] lies in the bounding box of the control points. *)
Definition bbox (p : primitive) (x y : Z) : bool :=
  let pts := control_points p in
  existsb (fun q => Py.leb_Z (fst q) x) pts &&
  existsb (fun q => Py.Z_leb x (fst q)) pts &&
  existsb (fun q => Py.leb_Z (snd q) y) pts &&
  existsb (fun q => Py.Z_leb y (snd q)) pts.

Definition inside (im : Image) (x y : Z) : bool :=
  (0 <=? x) && (x <? fst (size im)) && (0 <=? y) && (y <? snd (size im)).

Section Raster.

(** [covers p x y]: the call [p] paints pixel [(x, y)]. *)
Variable covers : primitive -> Z -> Z -> bool.

(** On an RGBA image a call stores its colour in the pixels it paints,
    alpha included; later calls overwrite earlier ones. *)
Definition getpixel (im : Image) (x y : Z) : option color :=
  if inside im x y then
    Some (fold_left (fun c p => if covers p x y then fill_of p else c)
                    (drawn im) (background im))
  else None.

Definition untouched (im : Image) (x y : Z) : Prop :=
  Forall (fun p => covers p x y = false) (drawn im).

End Raster.

(** The fact used about the rasteriser: a call paints nothing outside the
    bounding box of its control points. *)
Definition confined (covers : primitive -> Z -> Z -> bool) : Prop :=
  forall p x y, covers p x y = true -> bbox p x y = true.

End Draw.

(* ===================================================================== *)
(** ** [create_geometric_icon] *)
(* ===================================================================== *)

Module Icon.
Import Py.
Local Open Scope py_scope.

Definition red_color : Draw.color := (217, 67, 67, 255).
Definition darker_red : Draw.color := (180, 50, 50, 255).
Definition lighter_red : Draw.color := (237, 87, 87, 255).
Definition edge_red : Draw.color := (150, 40, 40, 255).
Definition white_200 : Draw.color := (255, 255, 255, 200).

(** The local [scale = size / 128] of the script is never read and is left
    out. *)
Definition create_geometric_icon (size : Z) : Draw.Image :=
  let img := Draw.new "RGBA" (size, size) (0, 0, 0, 0) in
  let center_x := size // 2 in
  let center_y := size // 2 in
  if (size <=? 19)%Z then
    let box_size := Py.int (size * PFloat F64.c0_7) in
    let x1 := center_x - box_size // 2 in
    let y1 := center_y - box_size // 2 in
    let x2 := center_x + box_size // 2 in
    let y2 := center_y + box_size // 2 in
    let img := Draw.rectangle img [x1; y1; x2; y2] red_color in
    if (16 <=? size)%Z then
      let img := Draw.rectangle img [x1 + 2; y1 + 2; x2 - 2; y1 + 3] white_200 in
      let img := Draw.rectangle img [x1 + 2; center_y - 1; x2 - 2; center_y] white_200 in
      let img := Draw.rectangle img [x1 + 2; y2 - 3; x2 - 2; y2 - 2] white_200 in
      img
    else img
  else if (size <=? 48)%Z then
    let cube_size := Py.int (size * PFloat F64.c0_5) in
    let offset := cube_size // 3 in
    let x1 := center_x - cube_size // 2 in
    let y1 := center_y - cube_size // 2 + offset // 2 in
    let x2 := center_x + cube_size // 2 in
    let y2 := center_y + cube_size // 2 + offset // 2 in
    let img := Draw.rectangle img [x1; y1; x2; y2] red_color in
    let top_points :=
      [(x1, y1); (x1 + offset, y1 - offset); (x2 + offset, y1 - offset); (x2, y1)] in
    let img := Draw.polygon img top_points darker_red in
    let right_points :=
      [(x2, y1); (x2 + offset, y1 - offset); (x2 + offset, y2 - offset); (x2, y2)] in
    let img := Draw.polygon img right_points darker_red in
    img
  else
    let cube_size := Py.int (size * PFloat F64.c0_4) in
    let offset := cube_size // PFloat F64.c2_5 in
    let x1 := center_x - cube_size // 2 in
    let y1 := center_y - cube_size // 3 in
    let x2 := center_x + cube_size // 2 in
    let y2 := center_y + cube_size // 3 in
    let front_points :=
      [(x1, y1 + offset // 2); (x1, y2 + offset // 2);
       (x2, y2 + offset // 2); (x2, y1 + offset // 2)] in
    let img := Draw.polygon img front_points red_color in
    let top_points :=
      [(x1, y1 + offset // 2); (x1 + offset, y1 - offset // 2);
       (x2 + offset, y1 - offset // 2); (x2, y1 + offset // 2)] in
    let img := Draw.polygon img top_points lighter_red in
    let right_points :=
      [(x2, y1 + offset // 2); (x2 + offset, y1 - offset // 2);
       (x2 + offset, y2 - offset // 2); (x2, y2 + offset // 2)] in
    let img := Draw.polygon img right_points darker_red in
    let img := Draw.line img [x1; y1 + offset // 2; x2; y1 + offset // 2] edge_red 1 in
    let img := Draw.line img [x2; y1 + offset // 2; x2; y2 + offset // 2] edge_red 1 in
    let img := Draw.line img [x1; y1 + offset // 2; x1; y2 + offset // 2] edge_red 1 in
    if (128 <=? size)%Z then
      let s_size := cube_size // 3 in
      let s_x := center_x in
      let s_y := center_y + offset // 4 in
      let img := Draw.arc img [s_x - s_size // 2; s_y - s_size // 2; s_x + s_size // 2; s_y]
                          0 180 white_200 3 in
      let img := Draw.arc img [s_x - s_size // 2; s_y; s_x + s_size // 2; s_y + s_size // 2]
                          180 360 white_200 3 in
      img
    else img.

(** The three detail tiers.  Which one built an image shows in its calls:
    only the detailed tier strokes lines, and the simple tier alone draws no
    polygon. *)
Inductive tier : Set := Simple | Medium | Detailed.

Definition tier_of (im : Draw.Image) : tier :=
  if existsb (Draw.is_kind Draw.KLine) (Draw.drawn im) then Detailed
  else if existsb (Draw.is_kind Draw.KPolygon) (Draw.drawn im) then Medium
  else Simple.

End Icon.

(* ===================================================================== *)
(** ** The vector document *)
(* ===================================================================== *)

Module Svg.
Local Open Scope string_scope.

(** Inside a Rocq string literal a double quote has to be doubled.  To keep
    the text as it stands in the script, the literal below writes every double
    quote of [svg_content] as an apostrophe (the document has none of its own)
    and [requote] puts them back. *)
Definition dquote : ascii := "034"%char.

Fixpoint requote (s : string) : string :=
  match s with
  | EmptyString => EmptyString
  | String c s' => String (if Ascii.eqb c "'" then dquote else c) (requote s')
  end.

Definition svg_content : string := requote
"<svg width='128' height='128' viewBox='0 0 128 128' xmlns='http://www.w3.org/2000/svg'>
  <!-- Transparent background -->
  <rect width='128' height='128' fill='transparent' opacity='0'/>
  
  <!-- Geometric symbol -->
  <g transform='translate(64, 64) scale(1.4)' fill='#d94343'>
    <!-- Original geometric symbol scaled and centered -->
    <g transform='translate(-25, -25) scale(1.0)'>
      <!-- Top rectangle/face -->
      <path d='M45.6,14.7v20.9l-7.7,0.02l-11.4-0.007V14.8l19.1-0.02 M25.9,13.9c-0.26,0.036-0.39,0.17-0.4,0.41v21.8    c0.021,0.28,0.16,0.42,0.42,0.43l19.9,0c0.11-0.007,0.21-0.05,0.29-0.14c0.078-0.11,0.11-0.2,0.1-0.29V14.4c-0.007-0.24-0.14-0.38-0.4-0.41l-19.9,0'/>
      
      <!-- Bottom right face -->
      <path d='M44.2,37.8L26.1,48.3l-3.9-6.7l-5.7-9.9l18.1-10.5L44.2,37.8 M35.1,20.4c-0.16-0.21-0.35-0.26-0.56-0.14    L15.8,31.2c-0.23,0.16-0.29,0.35-0.16,0.58l10,17.3c0.064,0.093,0.15,0.16,0.26,0.18c0.13,0.014,0.23-0.007,0.29-0.057l18.8-10.9    c0.2-0.12,0.26-0.31,0.16-0.55L35.1,20.4'/>
      
      <!-- Bottom left face -->
      <path d='M23.7,48.2L5.5,37.7l3.8-6.7l5.7-9.9l18.1,10.5L23.7,48.2 M34.1,31.6c0.1-0.24,0.05-0.43-0.15-0.55    L15.1,20.2c-0.25-0.12-0.45-0.07-0.58,0.15L4.6,37.6c-0.05,0.1-0.064,0.21-0.021,0.32c0.057,0.12,0.12,0.19,0.2,0.23l18.8,10.9    c0.21,0.11,0.39,0.07,0.56-0.14l10-17.3'/>
      
      <!-- Left face -->
      <path d='M4.4,35.5V14.5l7.7-0.021l11.4,0.007v21l-19.1,0.021 M23.9,36.3c0.26-0.036,0.39-0.17,0.4-0.41V14.1    c-0.021-0.28-0.16-0.42-0.42-0.43l-19.9,0c-0.11,0.007-0.21,0.05-0.29,0.14c-0.078,0.11-0.11,0.2-0.1,0.29v21.8c0.007,0.24,0.14,0.38,0.4,0.41l19.9,0'/>
      
      <!-- Top right face -->
      <path d='M26.3,2.1l18.1,10.5L40.6,19.3l-5.7,9.9L16.7,18.7L26.3,2.1 M15.8,18.6c-0.1,0.24-0.05,0.43,0.15,0.55    l18.8,10.9c0.25,0.12,0.45,0.07,0.58-0.15l10-17.3c0.05-0.1,0.064-0.21,0.021-0.32c-0.057-0.12-0.12-0.19-0.2-0.23L26.4,1.2    c-0.21-0.11-0.39-0.07-0.56,0.14L15.8,18.6'/>
      
      <!-- Top left face -->
      <path d='M5.7,12.5L23.8,2l3.9,6.7l5.7,9.9L15.3,29.1L5.7,12.5 M14.8,29.8c0.16,0.21,0.35,0.26,0.56,0.14    l18.8-10.9c0.23-0.16,0.29-0.35,0.16-0.58L24.3,1.2c-0.064-0.093-0.15-0.16-0.26-0.18c-0.13-0.014-0.23,0.007-0.29,0.057L5,11.9    c-0.2,0.12-0.26,0.31-0.16,0.55l9.9,17.3'/>
    </g>
  </g>
</svg>".

(** *** A reader for the XML subset the document is written in

    Elements with double-quoted attributes, empty-element tags and comments;
    character data between tags is skipped. *)

Inductive token : Set :=
| TOpen (name : string) (attrs : list (string * string))
| TClose (name : string)
| TEmpty (name : string) (attrs : list (string * string))
| TComment.

Local Unset Elimination Schemes.
Inductive element : Set :=
| Element (tag : string) (attrs : list (string * string)) (children : list element).
Local Set Elimination Schemes.

Definition text (rev_chars : list ascii) : string :=
  string_of_list_ascii (List.rev rev_chars).

Definition is_space (c : ascii) : bool :=
  Ascii.eqb c " " || Ascii.eqb c "010" || Ascii.eqb c "009" || Ascii.eqb c "013".

(** A tag body read so far (last character first) may end at a [>]: always
    for an ordinary tag, and for a comment only after [--]. *)
Definition may_close (rev_body : list ascii) : bool :=
  if String.prefix "!--" (text rev_body) then
    match rev_body with
    | "-"%char :: "-"%char :: _ :: _ :: _ :: _ => true
    | _ => false
    end
  else true.

(** The bodies of the tags of a document, in order. *)
Fixpoint tag_bodies (s : string) (cur : option (list ascii)) : option (list string) :=
  match s with
  | EmptyString => match cur with None => Some [] | Some _ => None end
  | String c s' =>
      match cur with
      | None => if Ascii.eqb c "<" then tag_bodies s' (Some []) else tag_bodies s' None
      | Some body =>
          if Ascii.eqb c ">" && may_close body
          then option_map (cons (text body)) (tag_bodies s' None)
          else tag_bodies s' (Some (c :: body))
      end
  end.

Inductive attr_state : Set :=
| InKey (rev_key : list ascii)
| AfterEq (key : string)
| InValue (key : string) (rev_value : list ascii).

Fixpoint read_attrs (s : string) (st : attr_state) : option (list (string * string)) :=
  match s with
  | EmptyString => match st with InKey [] => Some [] | _ => None end
  | String c s' =>
      match st with
      | InKey k =>
          if Ascii.eqb c "=" then
            match k with [] => None | _ => read_attrs s' (AfterEq (text k)) end
          else if is_space c then
            match k with [] => read_attrs s' (InKey []) | _ => None end
          else read_attrs s' (InKey (c :: k))
      | AfterEq k =>
          if Ascii.eqb c dquote then read_attrs s' (InValue k []) else None
      | InValue k v =>
          if Ascii.eqb c dquote
          then option_map (cons (k, text v)) (read_attrs s' (InKey []))
          else read_attrs s' (InValue k (c :: v))
      end
  end.

(** Split a tag body into the element name and the rest. *)
Fixpoint read_name (s : string) (rev_name : list ascii) : string * string :=
  match s with
  | EmptyString => (text rev_name, EmptyString)
  | String c s' =>
      if is_space c then (text rev_name, s') else read_name s' (c :: rev_name)
  end.

Definition drop_last (s : string) : string :=
  String.substring 0 (String.length s - 1) s.

Definition ends_with_slash (s : string) : bool :=
  match String.get (String.length s - 1) s with
  | Some c => Ascii.eqb c "/"
  | None => false
  end.

Definition read_tag (body : string) : option token :=
  if String.prefix "!--" body then Some TComment
  else match body with
  | String "/" name => Some (TClose name)
  | _ =>
      let empty := ends_with_slash body in
      let (name, rest) := read_name (if empty then drop_last body else body) [] in
      match read_attrs rest (InKey []) with
      | Some attrs => Some (if empty then TEmpty name attrs else TOpen name attrs)
      | None => None
      end
  end.

Fixpoint read_tags (bodies : list string) : option (list token) :=
  match bodies with
  | [] => Some []
  | b :: bs =>
      match read_tag b, read_tags bs with
      | Some t, Some ts => Some (t :: ts)
      | _, _ => None
      end
  end.

(** An open element: its name, attributes and the children read so far,
    last first. *)
Definition frame : Set := (string * list (string * string) * list element)%type.

Definition add_child (e : element) (stack : list frame) (rev_roots : list element)
    : list frame * list element :=
  match stack with
  | (n, a, ch) :: rest => ((n, a, e :: ch) :: rest, rev_roots)
  | [] => ([], e :: rev_roots)
  end.

Fixpoint build (ts : list token) (stack : list frame) (rev_roots : list element)
    : option (list element) :=
  match ts with
  | [] => match stack with [] => Some (List.rev rev_roots) | _ => None end
  | TComment :: ts' => build ts' stack rev_roots
  | TOpen n a :: ts' => build ts' ((n, a, []) :: stack) rev_roots
  | TEmpty n a :: ts' =>
      let (stack', roots') := add_child (Element n a []) stack rev_roots in
      build ts' stack' roots'
  | TClose n :: ts' =>
      match stack with
      | (n', a, ch) :: rest =>
          if String.eqb n n' then
            let (stack', roots') := add_child (Element n' a (List.rev ch)) rest rev_roots in
            build ts' stack' roots'
          else None
      | [] => None
      end
  end.

(** A document has exactly one root element. *)
Definition parse (s : string) : option element :=
  match tag_bodies s None with
  | Some bodies =>
      match read_tags bodies with
      | Some ts =>
          match build ts [] [] with
          | Some [root] => Some root
          | _ => None
          end
      | None => None
      end
  | None => None
  end.

Definition tag (e : element) : string := let (t, _, _) := e in t.
Definition attrs (e : element) : list (string * string) := let (_, a, _) := e in a.
Definition children (e : element) : list element := let (_, _, ch) := e in ch.

Fixpoint attr (key : string) (l : list (string * string)) : option string :=
  match l with
  | [] => None
  | (k, v) :: l' => if String.eqb k key then Some v else attr key l'
  end.

(** Number of elements called [name] in the tree. *)
Fixpoint count (name : string) (e : element) : nat :=
  match e with
  | Element t _ ch =>
      ((if String.eqb t name then 1 else 0) + list_sum (map (count name) ch))%nat
  end.

(** Every element called [name], with the names of its ancestors from the
    root down and the fill it is painted with: its own [fill] attribute or
    else the nearest one inherited. *)
Fixpoint located (name : string) (ancestors : list string) (fill : option string)
    (e : element) : list (list string * option string * element) :=
  match e with
  | Element t a ch =>
      let fill' := match attr "fill" a with Some f => Some f | None => fill end in
      (if String.eqb t name then [(ancestors, fill', e)] else [])
      ++ flat_map (located name (ancestors ++ [t]) fill') ch
  end.

End Svg.

(* ===================================================================== *)
(** ** The file system and [generate_icons] *)
(* ===================================================================== *)

Module Driver.
Local Open Scope string_scope.

(** The file system modelled holds directories and regular files, each under
    its own path: there are no symbolic links, every entry may be read and
    written, space never runs out, and nothing but the script changes it.

    What a file holds: an image encoded in some format (the encoding is
    lossless, so the file stands for the image), or text. *)
Inductive data : Set :=
| Encoded (format : string) (im : Draw.Image)
| Text (s : string).

Inductive entry : Set :=
| Dir
| File (d : data).

Inductive error : Set :=
| FileExistsError
| FileNotFoundError
| NotADirectoryError
| IsADirectoryError.

(** The world the script acts on: the entries of the file system by path
    (relative to the working directory), the paths written so far in order,
    and the strings printed, one for each call of [print]. *)
Record world : Type := mkWorld {
  files : gmap string entry;
  written : list string;
  stdout : list string
}.

Inductive outcome (A : Type) : Type :=
| Returned (a : A)
| Raised (e : error).
Arguments Returned {A} a.
Arguments Raised {A} e.

(** Commands: they change the world and return or raise. *)
Definition M (A : Type) : Type := world -> outcome A * world.

Definition ret {A} (a : A) : M A := fun w => (Returned a, w).

Definition raise {A} (e : error) : M A := fun w => (Raised e, w).

Definition bind {A B} (c : M A) (k : A -> M B) : M B :=
  fun w =>
    match c w with
    | (Returned a, w') => k a w'
    | (Raised e, w') => (Raised e, w')
    end.

Notation "x <- c ;; k" := (bind c (fun x => k))
  (at level 100, c at next level, right associativity).
Notation "c ;; k" := (bind c (fun _ => k))
  (at level 100, right associativity).

(** [for x in l: body] *)
Fixpoint for_each {A} (l : list A) (body : A -> M unit) : M unit :=
  match l with
  | [] => ret tt
  | x :: l' => body x ;; for_each l' body
  end.

(** [os.path.exists(p)] *)
Definition path_exists (p : string) : M bool :=
  fun w => (Returned (bool_decide (is_Some (files w !! p))), w).

(** [os.makedirs(p)] for a path of one component: it raises when the path
    exists already. *)
Definition makedirs (p : string) : M unit :=
  fun w =>
    match files w !! p with
    | Some _ => (Raised FileExistsError, w)
    | None => (Returned tt, mkWorld (<[p := Dir]> (files w)) (written w) (stdout w))
    end.

(** The directory part of a path: what precedes its last [/], if it has one. *)
Fixpoint dirname (p : string) : option string :=
  match p with
  | EmptyString => None
  | String c p' =>
      match dirname p' with
      | Some d => Some (String c d)
      | None => if Ascii.eqb c "/" then Some EmptyString else None
      end
  end.

(** Create or replace the file at [p].  The directory named in the path
    must exist, and [p] must not be a directory. *)
Definition write_file (p : string) (d : data) : M unit :=
  fun w =>
    let store :=
      match files w !! p with
      | Some Dir => (Raised IsADirectoryError, w)
      | _ => (Returned tt,
              mkWorld (<[p := File d]> (files w)) (written w ++ [p]) (stdout w))
      end in
    match dirname p with
    | None => store
    | Some parent =>
        match files w !! parent with
        | Some Dir => store
        | Some (File _) => (Raised NotADirectoryError, w)
        | None => (Raised FileNotFoundError, w)
        end
    end.

(** [img.save(p, format, optimize=True)]; [optimize] only affects the size
    of the encoding. *)
Definition save (img : Draw.Image) (p : string) (format : string) : M unit :=
  write_file p (Encoded format img).

(** [with open(p, 'w') as f: f.write(s)] *)
Definition write_text (p : string) (s : string) : M unit :=
  write_file p (Text s).

Definition print (s : string) : M unit :=
  fun w => (Returned tt, mkWorld (files w) (written w) (stdout w ++ [s])).

Definition sizes : list Z := [16; 18; 19; 38; 48; 128]%Z.

Definition output_path (size : Z) : string :=
  "icons/" +:+ pretty size +:+ ".png".

Definition svg_path : string := "icons/secure-share-icon-transparent.svg".

Definition generate_icons : M unit :=
  present <- path_exists "icons" ;;
  (if negb present then makedirs "icons" else ret tt) ;;
  print "Restoring SecureShare icons with transparent background..." ;;
  for_each sizes (fun size =>
    let img := Icon.create_geometric_icon size in
    save img (output_path size) "PNG" ;;
    print ("[OK] Restored " +:+ output_path size)) ;;
  write_text svg_path Svg.svg_content ;;
  print ("[OK] Created transparent SVG: " +:+ svg_path) ;;
  print "
All icons restored successfully with transparent backgrounds!" ;;
  print "The icons now have:" ;;
  print "- Transparent backgrounds (will work on any Chrome theme)" ;;
  print "- Your original geometric/cube design" ;;
  print "- Proper sizing for each resolution" ;;
  print "
Reload the extension in Chrome to see the updated icons.".

(** The files the loop of [generate_icons] stores, and what a whole run leaves
    in the file system: the directory, the six rasters and the vector
    document. *)
Definition saved (l : list Z) (m : gmap string entry) : gmap string entry :=
  foldl (fun m size =>
           <[output_path size := File (Encoded "PNG" (Icon.create_geometric_icon size))]> m)
        m l.

Definition targets : list string := (map output_path sizes ++ [svg_path])%list.

Definition generated (m : gmap string entry) : gmap string entry :=
  <[svg_path := File (Text Svg.svg_content)]> (saved sizes (<["icons" := Dir]> m)).

Definition empty_world : world := mkWorld ∅ [] [].

End Driver.

(* ===================================================================== *)
(** ** What a run prints, and worlds to start it from *)
(* ===================================================================== *)

Module Report.
Import Driver.
Local Open Scope string_scope.

(** The first line printed, and the line printed after each raster. *)
Definition banner : string := "Restoring SecureShare icons with transparent background...".

Definition restored (p : string) : string := "[OK] Restored " +:+ p.

(** The lines printed once every file is written. *)
Definition summary : list string :=
  ["[OK] Created transparent SVG: icons/secure-share-icon-transparent.svg";
   String "010" "All icons restored successfully with transparent backgrounds!";
   "The icons now have:";
   "- Transparent backgrounds (will work on any Chrome theme)";
   "- Your original geometric/cube design";
   "- Proper sizing for each resolution";
   String "010" "Reload the extension in Chrome to see the updated icons."].

(** [print(s)] sends [s] and a newline to the standard output, so it adds
    the lines of [s]: the pieces of [s] between its newlines. *)
Fixpoint lines_of (s : string) : list string :=
  match s with
  | EmptyString => [EmptyString]
  | String c s' =>
      if Ascii.eqb c "010" then EmptyString :: lines_of s'
      else match lines_of s' with
           | l :: ls => String c l :: ls
           | [] => [String c EmptyString]
           end
  end.

(** The lines that a sequence of calls of [print] puts on the standard
    output. *)
Definition printed_lines (out : list string) : list string := flat_map lines_of out.

(** After the directory is seen to and the banner is printed. *)
Definition started (w : world) : world :=
  mkWorld (<["icons" := Dir]> (files w)) (written w) (stdout w ++ [banner]).

(** A world where [icons] is a text file. *)
Definition icons_file_world : world :=
  mkWorld {["icons" := File (Text "not a directory")]} [] [].

(** A world where [icons] is a directory that holds a directory
    [38.png]. *)
Definition blocked_world : world :=
  mkWorld (<["icons/38.png" := Dir]> {["icons" := Dir]}) [] [].

End Report.

(* ===================================================================== *)
(** ** Where the calls of an icon lie *)
(* ===================================================================== *)

Module Extent.

(** Every control point of the call is integral and lies in the square
    [[lo, hi] x [lo, hi]]. *)
Definition within (lo hi : Z) (p : Draw.primitive) : bool :=
  forallb (fun q =>
             match Draw.zpoint q with
             | Some (x, y) => (lo <=? x) && (x <=? hi) && (lo <=? y) && (y <=? hi)
             | None => false
             end)
          (Draw.control_points p).

(** The box of a rectangle or of an arc is given as [x0, y0, x1, y1] with
    [x0 <= x1] and [y0 <= y1]; recent versions of Pillow reject any other. *)
Definition ordered_box (p : Draw.primitive) : bool :=
  match p with
  | Draw.Rectangle xy _ | Draw.Arc xy _ _ _ _ =>
      match map Draw.zpoint (Draw.points xy) with
      | [Some (x0, y0); Some (x1, y1)] => (x0 <=? x1) && (y0 <=? y1)
      | _ => false
      end
  | _ => true
  end.

End Extent.

(* ===================================================================== *)
(** * Properties *)
(* ===================================================================== *)

(** ** Binary64 arithmetic on integers *)

Module F64_facts.
Import F64.

Lemma strip_spec (p : positive) : forall e,
  e <= snd (strip p e) /\
  Zpos (fst (strip p e)) * 2 ^ (snd (strip p e) - e) = Zpos p.
Proof.
  induction p as [p IH | p IH |]; intros e; cbn [strip fst snd].
  - rewrite Z.sub_diag. lia.
  - destruct (IH (e + 1)) as [Hle Hval]. split; [lia |].
    replace (snd (strip p (e + 1)) - e) with (snd (strip p (e + 1)) - (e + 1) + 1) by lia.
    rewrite Z.pow_add_r by lia. change (2 ^ 1) with 2.
    rewrite Z.mul_assoc, Hval. lia.
  - rewrite Z.sub_diag. lia.
Qed.

Lemma norm_spec (m e : Z) :
  e <= Fexp (norm m e) \/ m = 0.
Proof.
  destruct m as [| p | p]; [now right | left ..]; cbn [norm];
    pose proof (strip_spec p e) as [H _]; destruct (strip p e); exact H.
Qed.

Lemma norm_value (m e : Z) :
  e <= Fexp (norm m e) -> Fnum (norm m e) * 2 ^ (Fexp (norm m e) - e) = m.
Proof.
  destruct m as [| p | p]; cbn [norm]; intros H.
  - reflexivity.
  - pose proof (strip_spec p e) as [_ Hv]. destruct (strip p e); exact Hv.
  - pose proof (strip_spec p e) as [_ Hv]. destruct (strip p e); cbn [Fnum Fexp fst snd] in *.
    rewrite <- Pos2Z.opp_pos, Z.mul_opp_l, Hv. reflexivity.
Qed.

Lemma norm_double (m e : Z) : norm (2 * m) e = norm m (e + 1).
Proof. destruct m; reflexivity. Qed.

Lemma norm_shift (m e k : Z) : 0 <= k -> norm (m * 2 ^ k) e = norm m (e + k).
Proof.
  intros Hk. revert e. pattern k. apply natlike_ind; [| | exact Hk].
  - intros e. now rewrite Z.mul_1_r, Z.add_0_r.
  - intros x Hx IH e. rewrite Z.pow_succ_r by exact Hx.
    replace (m * (2 * 2 ^ x)) with (2 * (m * 2 ^ x)) by ring.
    rewrite norm_double, IH. f_equal. lia.
Qed.

Lemma denotes_norm (z : Z) : denotes (norm z 0) z.
Proof.
  destruct (norm_spec z 0) as [H | ->]; [| split; reflexivity].
  split; [exact H |]. pose proof (norm_value z 0 H) as Hv.
  now rewrite Z.sub_0_r in Hv.
Qed.

Lemma denotes_unique (f : float) (z : Z) : denotes f z -> to_Z f = Some z.
Proof.
  intros [He Hv]. unfold to_Z. destruct (0 <=? Fexp f) eqn:E; [now rewrite Hv | lia].
Qed.

Lemma denotes_opp (f : float) (z : Z) : denotes f z -> denotes (opp f) (- z).
Proof. intros [He Hv]. split; cbn; [exact He | lia]. Qed.

(** Rounding never creates fractional bits. *)
Lemma norm_whole (m e : Z) : 0 <= e -> 0 <= Fexp (norm m e).
Proof.
  intros He. destruct (norm_spec m e) as [H | ->]; [lia | reflexivity].
Qed.

Lemma round_whole (m e : Z) : 0 <= e -> 0 <= Fexp (round m e).
Proof.
  intros He. unfold round.
  destruct (Z.log2 (Z.abs m) + 1 - prec <=? 0) eqn:E; apply norm_whole; lia.
Qed.

Lemma of_Z_whole (z : Z) : 0 <= Fexp (of_Z z).
Proof. apply round_whole. lia. Qed.

Lemma add_whole (a b : float) : 0 <= Fexp a -> 0 <= Fexp b -> 0 <= Fexp (add a b).
Proof. intros Ha Hb. apply round_whole. lia. Qed.

Lemma sub_whole (a b : float) : 0 <= Fexp a -> 0 <= Fexp b -> 0 <= Fexp (sub a b).
Proof. intros Ha Hb. now apply add_whole. Qed.

Lemma floordiv_whole (a b : float) : 0 <= Fexp (floordiv a b).
Proof. apply round_whole. lia. Qed.

Lemma whole_to_Z (a : float) : 0 <= Fexp a -> is_Some (to_Z a).
Proof.
  intros H. unfold to_Z. destruct (0 <=? Fexp a) eqn:E; [now eexists | lia].
Qed.

Lemma round_small (m e : Z) : Z.abs m < 2 ^ 53 -> round m e = norm m e.
Proof.
  intros H. unfold round, prec.
  assert (Z.log2 (Z.abs m) < 53) as Hl.
  { destruct (Z.eq_dec (Z.abs m) 0) as [-> | Hne]; [reflexivity |].
    apply Z.log2_lt_pow2; lia. }
  destruct (Z.log2 (Z.abs m) + 1 - 53 <=? 0) eqn:E; [reflexivity | lia].
Qed.

Lemma of_Z_small (z : Z) : Z.abs z < 2 ^ 53 -> of_Z z = norm z 0.
Proof. apply round_small. Qed.

(** Two integer-valued floats whose sum fits in 53 bits add exactly. *)
Lemma add_exact (fa fb : float) (a b : Z) :
  denotes fa a -> denotes fb b -> Z.abs (a + b) < 2 ^ 53 ->
  add fa fb = norm (a + b) 0.
Proof.
  intros [Hea Hva] [Heb Hvb] Hs. unfold add.
  set (e := Z.min (Fexp fa) (Fexp fb)).
  set (m := Fnum fa * 2 ^ (Fexp fa - e) + Fnum fb * 2 ^ (Fexp fb - e)).
  assert (0 <= e) as He by (unfold e; lia).
  assert (m * 2 ^ e = a + b) as Hm.
  { unfold m. rewrite Z.mul_add_distr_r, <- !Z.mul_assoc, <- !Z.pow_add_r by (unfold e; lia).
    replace (Fexp fa - e + e) with (Fexp fa) by lia.
    replace (Fexp fb - e + e) with (Fexp fb) by lia. lia. }
  assert (Z.abs m <= Z.abs (a + b)) as Hle.
  { rewrite <- Hm, Z.abs_mul. assert (1 <= Z.abs (2 ^ e)) by (pose proof (Z.pow_pos_nonneg 2 e); lia).
    nia. }
  rewrite round_small by lia.
  rewrite <- Hm, norm_shift by exact He. f_equal.
Qed.

Lemma sub_exact (fa fb : float) (a b : Z) :
  denotes fa a -> denotes fb b -> Z.abs (a - b) < 2 ^ 53 ->
  sub fa fb = norm (a - b) 0.
Proof.
  intros Ha Hb Hs. unfold sub.
  rewrite (add_exact fa (opp fb) a (- b)); [f_equal; lia | exact Ha | now apply denotes_opp | ].
  now replace (a + - b) with (a - b) by lia.
Qed.

(** Floor division of integer-valued floats is floor division of integers. *)
Lemma floordiv_exact (fa fb : float) (a b : Z) :
  denotes fa a -> denotes fb b -> b <> 0 -> Z.abs (a / b) < 2 ^ 53 ->
  floordiv fa fb = norm (a / b) 0.
Proof.
  intros [Hea Hva] [Heb Hvb] Hb Hs. unfold floordiv.
  set (e := Z.min (Fexp fa) (Fexp fb)).
  assert (0 <= e) as He by (unfold e; lia).
  assert (Fnum fa * 2 ^ (Fexp fa - e) * 2 ^ e = a) as Ha.
  { rewrite <- Z.mul_assoc, <- Z.pow_add_r by (unfold e; lia).
    now replace (Fexp fa - e + e) with (Fexp fa) by lia. }
  assert (Fnum fb * 2 ^ (Fexp fb - e) * 2 ^ e = b) as Hb'.
  { rewrite <- Z.mul_assoc, <- Z.pow_add_r by (unfold e; lia).
    now replace (Fexp fb - e + e) with (Fexp fb) by lia. }
  assert (2 ^ e <> 0) as Hp by (pose proof (Z.pow_pos_nonneg 2 e); lia).
  rewrite <- Ha, <- Hb' in Hs |- *.
  rewrite Z.div_mul_cancel_r in Hs |- * by (try exact Hp; intros H0; rewrite H0 in Hb'; lia).
  now apply round_small.
Qed.

(** Floor division by [2.5]. *)
Lemma floordiv_2_5 (fa : float) (a : Z) :
  denotes fa a -> Z.abs (2 * a / 5) < 2 ^ 53 ->
  floordiv fa c2_5 = norm (2 * a / 5) 0.
Proof.
  intros [Hea Hva] Hs. unfold floordiv. cbn [c2_5 Fnum Fexp].
  rewrite Z.min_r by lia.
  replace (-1 - -1) with 0 by lia. rewrite Z.pow_0_r, Z.mul_1_r.
  replace (Fexp fa - -1) with (Fexp fa + 1) by lia.
  rewrite Z.pow_add_r by lia. change (2 ^ 1) with 2.
  replace (Fnum fa * (2 ^ Fexp fa * 2)) with (2 * a) by lia.
  now apply round_small.
Qed.

Lemma trunc_norm (m e : Z) : trunc (norm m e) = trunc (Float m e).
Proof.
  destruct (norm_spec m e) as [Hle | ->].
  2:{ unfold trunc; cbn [norm Fnum Fexp]. destruct (0 <=? e); [reflexivity |].
      now rewrite Z.quot_0_l by (pose proof (Z.pow_pos_nonneg 2 (- e)); lia). }
  pose proof (norm_value m e Hle) as Hv.
  set (q := Fnum (norm m e)) in *. set (e' := Fexp (norm m e)) in *.
  unfold trunc. fold q e'. cbn [Fnum Fexp].
  destruct (0 <=? e) eqn:E0; destruct (0 <=? e') eqn:E1; try lia.
  - rewrite <- Hv, <- Z.mul_assoc, <- Z.pow_add_r by lia. do 2 f_equal. lia.
  - rewrite <- Hv. replace (e' - e) with (e' + - e) by lia.
    rewrite Z.pow_add_r, Z.mul_assoc by lia.
    rewrite Z.quot_mul by (pose proof (Z.pow_pos_nonneg 2 (- e)); lia). reflexivity.
  - rewrite <- Hv. replace (- e) with (- e' + (e' - e)) by lia.
    rewrite Z.pow_add_r by lia.
    rewrite Z.quot_mul_cancel_r; [reflexivity | |];
      [pose proof (Z.pow_pos_nonneg 2 (- e')) | pose proof (Z.pow_pos_nonneg 2 (e' - e))]; lia.
Qed.

(** When does rounding followed by [int] give [k]: the exact value lies in
    [[k, k + 1)] and stays below [k + 1] by more than one unit of the last
    place kept. *)
Lemma trunc_round_bounds (m k E : Z) :
  0 <= m -> 0 < E ->
  k * 2 ^ E <= m ->
  m + 2 ^ (Z.log2 m - 52) < (k + 1) * 2 ^ E ->
  trunc (round m (- E)) = k.
Proof.
  intros Hm HE Hlo Hhi. unfold round, prec.
  rewrite Z.abs_eq by exact Hm.
  replace (Z.log2 m + 1 - 53) with (Z.log2 m - 52) by lia.
  set (s := Z.log2 m - 52) in *.
  assert (0 < 2 ^ E) as HpE by (apply Z.pow_pos_nonneg; lia).
  destruct (s <=? 0) eqn:Es.
  - rewrite trunc_norm. unfold trunc; cbn [Fnum Fexp].
    destruct (0 <=? - E) eqn:E0; [lia |]. rewrite Z.opp_involutive.
    rewrite Z.quot_div_nonneg by lia.
    assert (0 <= 2 ^ s) by (apply Z.pow_nonneg; lia).
    symmetry. apply (Z.div_unique m (2 ^ E) k (m - k * 2 ^ E)); lia.
  - assert (0 < s) as Hs by lia.
    assert (0 < 2 ^ s) as HpS by (apply Z.pow_pos_nonneg; lia).
    assert (s < E) as HsE.
    { apply (Z.pow_lt_mono_r_iff 2); lia. }
    assert (0 < m) as Hm0.
    { destruct (Z.eq_dec m 0) as [-> | ]; [cbn in s; lia | lia]. }
    rewrite (Z.sgn_pos m) by exact Hm0. rewrite Z.mul_1_l.
    set (P := 2 ^ s) in *. set (Q := 2 ^ (E - s)).
    assert (0 < Q) as HQ by (apply Z.pow_pos_nonneg; lia).
    assert (2 ^ E = Q * P) as HPQ.
    { unfold P, Q. rewrite <- Z.pow_add_r by lia. f_equal. lia. }
    pose proof (Z.div_mod m P ltac:(lia)) as Hdm.
    pose proof (Z.mod_pos_bound m P HpS) as Hr.
    set (q := m / P) in *. set (r := m mod P) in *.
    assert (k * Q <= q) as Hq1 by nia.
    assert (q + 1 < (k + 1) * Q) as Hq2 by nia.
    set (q' := if (2 ^ (s - 1) <? r) || (r =? 2 ^ (s - 1)) && Z.odd q then q + 1 else q).
    assert (0 <= q) as Hq0 by (apply Z.div_pos; lia).
    assert (k * Q <= q' < (k + 1) * Q /\ 0 <= q') as [Hq' Hq'0].
    { unfold q'. destruct ((2 ^ (s - 1) <? r) || (r =? 2 ^ (s - 1)) && Z.odd q); lia. }
    rewrite trunc_norm. unfold trunc; cbn [Fnum Fexp].
    destruct (0 <=? - E + s) eqn:E0; [lia |].
    replace (- (- E + s)) with (E - s) by lia. fold Q.
    rewrite Z.quot_div_nonneg by lia.
    symmetry. apply (Z.div_unique q' Q k (q' - k * Q)); lia.
Qed.

(** [int(n * 0.4)] is the floor of [2 n / 5]: the double nearest to [0.4]
    exceeds it by [2^-54 / 5], too little to carry a product over the next
    integer. *)
Lemma trunc_mul_0_4 (n : Z) :
  0 <= n < 2 ^ 50 -> trunc (mul (norm n 0) c0_4) = 2 * n / 5.
Proof.
  intros Hn. destruct (Z.eq_dec n 0) as [-> | Hn0]; [reflexivity |].
  destruct (denotes_norm n) as [Hea Hva].
  set (ma := Fnum (norm n 0)) in *. set (ea := Fexp (norm n 0)) in *.
  unfold mul. fold ma ea. cbn [c0_4 Fnum Fexp].
  set (M := 3602879701896397).
  assert (0 < 2 ^ ea) as HX by (apply Z.pow_pos_nonneg; lia).
  assert (0 < ma) as Hma by nia.
  assert (ea < 50) as Hea50.
  { apply (Z.pow_lt_mono_r_iff 2); [lia | lia |]. nia. }
  replace (ea + -53) with (- (53 - ea)) by lia.
  set (E := 53 - ea).
  assert (2 ^ E * 2 ^ ea = 2 ^ 53) as HE.
  { rewrite <- Z.pow_add_r by (unfold E; lia). f_equal. unfold E. lia. }
  assert (0 < 2 ^ E) as HpE by (apply Z.pow_pos_nonneg; unfold E; lia).
  set (k := 2 * n / 5).
  assert (5 * k <= 2 * n < 5 * k + 5) as Hk.
  { unfold k. pose proof (Z.div_mod (2 * n) 5 ltac:(lia)).
    pose proof (Z.mod_pos_bound (2 * n) 5 ltac:(lia)). lia. }
  set (X := 2 ^ ea) in *. set (PE := 2 ^ E) in *.
  change (2 ^ 53) with 9007199254740992 in HE.
  apply trunc_round_bounds.
  - unfold M. nia.
  - unfold E. lia.
  - fold PE. apply (Z.mul_le_mono_pos_r _ _ X HX).
    replace (k * PE * X) with (k * (PE * X)) by ring. rewrite HE.
    replace (ma * M * X) with (n * M) by (rewrite <- Hva; ring). unfold M. lia.
  - fold PE. set (T := 2 ^ (Z.log2 (ma * M) - 52)).
    assert (0 <= T) as HT0 by (apply Z.pow_nonneg; lia).
    assert (T * 2 ^ 52 <= ma * M) as HT.
    { destruct (Z_lt_le_dec (Z.log2 (ma * M)) 52) as [Hl | Hl].
      - unfold T. rewrite Z.pow_neg_r by lia. unfold M. nia.
      - unfold T. rewrite <- Z.pow_add_r by lia.
        replace (Z.log2 (ma * M) - 52 + 52) with (Z.log2 (ma * M)) by lia.
        apply Z.log2_spec. unfold M. nia. }
    change (2 ^ 52) with 4503599627370496 in HT.
    apply (Z.mul_lt_mono_pos_r X _ _ HX).
    replace ((k + 1) * PE * X) with ((k + 1) * (PE * X)) by ring. rewrite HE.
    replace ((ma * M + T) * X) with (n * M + T * X) by (rewrite <- Hva; ring).
    assert (T * X * 4503599627370496 <= n * M) as HTX.
    { rewrite <- Hva. replace (T * X * 4503599627370496) with (T * 4503599627370496 * X) by ring.
      replace (ma * X * M) with (ma * M * X) by ring.
      apply Z.mul_le_mono_nonneg_r; lia. }
    change (2 ^ 50) with 1125899906842624 in Hn.
    unfold M in *. lia.
Qed.

End F64_facts.

(** ** Agreement with the Standard Library's IEEE 754 *)

Module F64_reference_facts.
Import F64_reference.

(** On the sizes up to 600, around 2^53 where integers stop being exact, and
    on a spread of larger numbers, [F64] computes what [SpecFloat] computes at
    53 bits of precision. *)
Lemma agrees_with_SpecFloat :
  forallb agree (range (-20) 620) = true /\
  forallb agree (map (fun i => 2 ^ 53 - 40 + i) (range 0 80)) = true /\
  forallb agree (map (fun i => 3 * 2 ^ i - 1) (range 0 120)) = true.
Proof. vm_compute. repeat split; reflexivity. Qed.

End F64_reference_facts.

(** ** Python arithmetic on integers and integer-valued floats *)

Module Py_facts.
Import Py F64_facts.

Lemma to_Z_Fz (z : Z) : to_Z (Fz z) = Some z.
Proof. apply denotes_unique, denotes_norm. Qed.

Lemma denotes_of_Z (z : Z) : Z.abs z < 2 ^ 53 -> F64.denotes (F64.of_Z z) z.
Proof. intros H. rewrite of_Z_small by exact H. apply denotes_norm. Qed.

Lemma int_mul_0_4 (n : Z) :
  0 <= n < 2 ^ 50 -> int (mul (PInt n) (PFloat F64.c0_4)) = PInt (2 * n / 5).
Proof.
  intros H. cbn [mul int to_float]. rewrite of_Z_small by lia.
  now rewrite trunc_mul_0_4.
Qed.

Lemma floordiv_int_2_5 (a : Z) :
  Z.abs a < 2 ^ 53 -> floordiv (PInt a) (PFloat F64.c2_5) = Fz (2 * a / 5).
Proof.
  intros H. cbn [floordiv to_float]. unfold Fz. f_equal.
  apply floordiv_2_5; [now apply denotes_of_Z |].
  Z.div_mod_to_equations. lia.
Qed.

Lemma floordiv_Fz_int (a b : Z) :
  Z.abs a < 2 ^ 53 -> 0 < b < 2 ^ 53 -> floordiv (Fz a) (PInt b) = Fz (a / b).
Proof.
  intros Ha Hb. cbn [floordiv to_float Fz]. unfold Fz. f_equal.
  apply floordiv_exact; [apply denotes_norm | apply denotes_of_Z; lia | lia |].
  Z.div_mod_to_equations. nia.
Qed.

Lemma add_int_Fz (a b : Z) :
  Z.abs a < 2 ^ 53 -> Z.abs (a + b) < 2 ^ 53 -> add (PInt a) (Fz b) = Fz (a + b).
Proof.
  intros Ha Hs. cbn [add to_float Fz]. unfold Fz. f_equal.
  apply add_exact; [now apply denotes_of_Z | apply denotes_norm | exact Hs].
Qed.

Lemma sub_int_Fz (a b : Z) :
  Z.abs a < 2 ^ 53 -> Z.abs (a - b) < 2 ^ 53 -> sub (PInt a) (Fz b) = Fz (a - b).
Proof.
  intros Ha Hs. cbn [sub to_float Fz]. unfold Fz. f_equal.
  apply sub_exact; [now apply denotes_of_Z | apply denotes_norm | exact Hs].
Qed.

Lemma add_Fz_int (a b : Z) :
  Z.abs b < 2 ^ 53 -> Z.abs (a + b) < 2 ^ 53 -> add (Fz a) (PInt b) = Fz (a + b).
Proof.
  intros Hb Hs. cbn [add to_float Fz]. unfold Fz. f_equal.
  apply add_exact; [apply denotes_norm | now apply denotes_of_Z | exact Hs].
Qed.

Lemma sub_Fz_int (a b : Z) :
  Z.abs b < 2 ^ 53 -> Z.abs (a - b) < 2 ^ 53 -> sub (Fz a) (PInt b) = Fz (a - b).
Proof.
  intros Hb Hs. cbn [sub to_float Fz]. unfold Fz. f_equal.
  apply sub_exact; [apply denotes_norm | now apply denotes_of_Z | exact Hs].
Qed.

(** Sums, differences and floor quotients of whole numbers are whole, and so
    is whatever [int] returns. *)
Lemma whole_to_float (a : num) : whole a -> 0 <= F64.Fexp (to_float a).
Proof. destruct a; cbn; [intros _; apply of_Z_whole | trivial]. Qed.

Lemma whole_int_lit (z : Z) : whole (PInt z).
Proof. exact I. Qed.

Lemma whole_int (a : num) : whole (int a).
Proof. destruct a; exact I. Qed.

Lemma whole_add (a b : num) : whole a -> whole b -> whole (add a b).
Proof.
  intros Ha Hb. destruct a, b; cbn [add]; try exact I;
    apply add_whole; now apply whole_to_float.
Qed.

Lemma whole_sub (a b : num) : whole a -> whole b -> whole (sub a b).
Proof.
  intros Ha Hb. destruct a, b; cbn [sub]; try exact I;
    apply sub_whole; now apply whole_to_float.
Qed.

Lemma whole_floordiv (a b : num) : whole (floordiv a b).
Proof. destruct a, b; cbn [floordiv]; try exact I; apply floordiv_whole. Qed.

Lemma whole_integral (a : num) : whole a -> integral a.
Proof. destruct a; cbn; [now eexists | apply whole_to_Z]. Qed.

End Py_facts.

(** ** Pixels and points *)

Module Draw_facts.
Import Py Py_facts Draw.

Section Raster.
Variable covers : primitive -> Z -> Z -> bool.

Lemma fold_untouched (l : list primitive) (x y : Z) (c : color) :
  Forall (fun p => covers p x y = false) l ->
  fold_left (fun c p => if covers p x y then fill_of p else c) l c = c.
Proof.
  intros H. revert c. induction H as [| p l Hp _ IH]; intros c; cbn.
  - reflexivity.
  - rewrite Hp. apply IH.
Qed.

Lemma getpixel_untouched (im : Image) (x y : Z) :
  inside im x y = true -> untouched covers im x y ->
  getpixel covers im x y = Some (background im).
Proof.
  intros Hin Hun. unfold getpixel. rewrite Hin. f_equal.
  now apply fold_untouched.
Qed.

(** A pixel whose colour differs from the one before was painted by one of
    the calls. *)
Lemma fold_painted (l : list primitive) (x y : Z) (c : color) :
  fold_left (fun c p => if covers p x y then fill_of p else c) l c <> c ->
  Exists (fun p => covers p x y = true) l.
Proof.
  revert c. induction l as [| p l IH]; intros c H; cbn in H.
  - congruence.
  - destruct (covers p x y) eqn:E.
    + now apply Exists_cons_hd.
    + apply Exists_cons_tl, (IH c), H.
Qed.

Hypothesis covers_confined : confined covers.

Lemma outside_boxes_untouched (im : Image) (x y : Z) :
  forallb (fun p => negb (bbox p x y)) (drawn im) = true ->
  untouched covers im x y.
Proof.
  intros H. unfold untouched. rewrite forallb_forall in H.
  apply List.Forall_forall. intros p Hp. specialize (H p Hp).
  destruct (covers p x y) eqn:E; [| reflexivity].
  apply covers_confined in E. rewrite E in H. discriminate.
Qed.

Lemma painted_in_box (im : Image) (x y : Z) (c : color) :
  getpixel covers im x y = Some c -> c <> background im ->
  Exists (fun p => bbox p x y = true) (drawn im).
Proof.
  unfold getpixel. destruct (inside im x y); [| discriminate].
  intros [= <-] Hne. apply fold_painted in Hne.
  eapply Exists_impl; [exact Hne |]. intros p. apply covers_confined.
Qed.

End Raster.

Lemma zpoint_int_int (x y : Z) : Draw.zpoint (PInt x, PInt y) = Some (x, y).
Proof. reflexivity. Qed.

Lemma zpoint_int_Fz (x y : Z) : Draw.zpoint (PInt x, Fz y) = Some (x, y).
Proof. unfold Draw.zpoint. cbn [fst snd]. now rewrite to_Z_Fz. Qed.

Lemma zpoint_Fz_Fz (x y : Z) : Draw.zpoint (Fz x, Fz y) = Some (x, y).
Proof. unfold Draw.zpoint. cbn [fst snd]. now rewrite !to_Z_Fz. Qed.

Lemma bbox_rectangle (a b c d x y : Z) (col : Draw.color) :
  Draw.bbox (Draw.Rectangle [PInt a; PInt b; PInt c; PInt d] col) x y = true ->
  a <= c -> b <= d -> a <= x <= c /\ b <= y <= d.
Proof.
  unfold Draw.bbox. cbn [Draw.control_points Draw.points existsb fst snd leb_Z Z_leb].
  rewrite !andb_true_iff, !orb_true_iff, !Z.leb_le. intuition (try discriminate; lia).
Qed.

End Draw_facts.

(** ** The calls of each tier *)

Module Icon_facts.
Import Py Py_facts Icon.

Lemma add_int_int (a b : Z) : add (PInt a) (PInt b) = PInt (a + b).
Proof. reflexivity. Qed.

Lemma sub_int_int (a b : Z) : sub (PInt a) (PInt b) = PInt (a - b).
Proof. reflexivity. Qed.

Lemma floordiv_int_int (a b : Z) : floordiv (PInt a) (PInt b) = PInt (a / b).
Proof. reflexivity. Qed.

Ltac bounded :=
  change (2 ^ 53) with 9007199254740992; change (2 ^ 50) with 1125899906842624 in *;
  Z.div_mod_to_equations; lia.

(** Evaluate Python arithmetic on integers and integer-valued floats, from the
    leaves up. *)
Ltac py_eval :=
  repeat first
    [ rewrite add_int_int | rewrite sub_int_int | rewrite floordiv_int_int
    | rewrite floordiv_int_2_5 by bounded
    | rewrite floordiv_Fz_int by bounded
    | rewrite add_int_Fz by bounded | rewrite sub_int_Fz by bounded
    | rewrite add_Fz_int by bounded | rewrite sub_Fz_int by bounded ].

(** The calls of the detailed tier, with every coordinate computed. *)
Lemma detailed_drawn (size : Z) :
  48 < size < 2 ^ 50 ->
  let c := 2 * size / 5 in
  let o := 2 * c / 5 in
  let cx := size / 2 in
  let x1 := cx - c / 2 in
  let x2 := cx + c / 2 in
  let y1 := cx - c / 3 in
  let y2 := cx + c / 3 in
  let h := c / 3 / 2 in
  let sy := cx + o / 4 in
  Draw.drawn (create_geometric_icon size) =
    [ Draw.Polygon [(PInt x1, Fz (y1 + o / 2)); (PInt x1, Fz (y2 + o / 2));
                    (PInt x2, Fz (y2 + o / 2)); (PInt x2, Fz (y1 + o / 2))] red_color;
      Draw.Polygon [(PInt x1, Fz (y1 + o / 2)); (Fz (x1 + o), Fz (y1 - o / 2));
                    (Fz (x2 + o), Fz (y1 - o / 2)); (PInt x2, Fz (y1 + o / 2))] lighter_red;
      Draw.Polygon [(PInt x2, Fz (y1 + o / 2)); (Fz (x2 + o), Fz (y1 - o / 2));
                    (Fz (x2 + o), Fz (y2 - o / 2)); (PInt x2, Fz (y2 + o / 2))] darker_red;
      Draw.Line [PInt x1; Fz (y1 + o / 2); PInt x2; Fz (y1 + o / 2)] edge_red 1;
      Draw.Line [PInt x2; Fz (y1 + o / 2); PInt x2; Fz (y2 + o / 2)] edge_red 1;
      Draw.Line [PInt x1; Fz (y1 + o / 2); PInt x1; Fz (y2 + o / 2)] edge_red 1 ]
    ++ (if 128 <=? size then
          [ Draw.Arc [PInt (cx - h); Fz (sy - h); PInt (cx + h); Fz sy] 0 180 white_200 3;
            Draw.Arc [PInt (cx - h); Fz sy; PInt (cx + h); Fz (sy + h)] 180 360 white_200 3 ]
        else []).
Proof.
  intros Hs c o cx x1 x2 y1 y2 h sy.
  unfold create_geometric_icon.
  destruct (size <=? 19) eqn:E1; [lia |].
  destruct (size <=? 48) eqn:E2; [lia |].
  cbv zeta.
  rewrite int_mul_0_4 by lia.
  py_eval.
  destruct (128 <=? size); reflexivity.
Qed.

(** Case analysis on an integer confined to a short range by the
    hypotheses. *)
Ltac each_size size :=
  destruct size as [| size | size]; try lia;
  repeat (destruct size as [size | size |]; try lia).

Ltac zpoints :=
  cbn [map Draw.points];
  rewrite ?Draw_facts.zpoint_int_int, ?Draw_facts.zpoint_int_Fz, ?Draw_facts.zpoint_Fz_Fz.

(** The calls of the medium tier, with every coordinate computed. *)
Lemma medium_drawn (size : Z) :
  20 <= size <= 48 ->
  let s := size / 2 in
  let o := s / 3 in
  let cx := size / 2 in
  let x1 := cx - s / 2 in
  let y1 := cx - s / 2 + o / 2 in
  let x2 := cx + s / 2 in
  let y2 := cx + s / 2 + o / 2 in
  int (PInt size * PFloat F64.c0_5) = PInt s /\
  Draw.drawn (create_geometric_icon size) =
    [ Draw.Rectangle [PInt x1; PInt y1; PInt x2; PInt y2] red_color;
      Draw.Polygon [(PInt x1, PInt y1); (PInt (x1 + o), PInt (y1 - o));
                    (PInt (x2 + o), PInt (y1 - o)); (PInt x2, PInt y1)] darker_red;
      Draw.Polygon [(PInt x2, PInt y1); (PInt (x2 + o), PInt (y1 - o));
                    (PInt (x2 + o), PInt (y2 - o)); (PInt x2, PInt y2)] darker_red ].
Proof.
  intros Hs. each_size size; vm_compute; split; reflexivity.
Qed.

(** The calls of the simple tier, with every coordinate computed. *)
Lemma simple_drawn (size : Z) :
  1 <= size <= 19 ->
  let b := 7 * size / 10 in
  let c := size / 2 in
  let x1 := c - b / 2 in
  let x2 := c + b / 2 in
  int (PInt size * PFloat F64.c0_7) = PInt b /\
  Draw.drawn (create_geometric_icon size) =
    Draw.Rectangle [PInt x1; PInt x1; PInt x2; PInt x2] red_color ::
    (if 16 <=? size then
       [ Draw.Rectangle [PInt (x1 + 2); PInt (x1 + 2); PInt (x2 - 2); PInt (x1 + 3)] white_200;
         Draw.Rectangle [PInt (x1 + 2); PInt (c - 1); PInt (x2 - 2); PInt c] white_200;
         Draw.Rectangle [PInt (x1 + 2); PInt (x2 - 3); PInt (x2 - 2); PInt (x2 - 2)] white_200 ]
     else []).
Proof.
  intros Hs. each_size size; vm_compute; split; reflexivity.
Qed.

(** What does not depend on any coordinate: the canvas, and the kind and the
    colour of every call. *)
Lemma canvas (size : Z) :
  Draw.mode (create_geometric_icon size) = "RGBA"%string /\
  Draw.size (create_geometric_icon size) = (size, size) /\
  Draw.background (create_geometric_icon size) = (0, 0, 0, 0).
Proof.
  unfold create_geometric_icon. cbv zeta.
  destruct (size <=? 19), (16 <=? size), (size <=? 48), (128 <=? size);
    repeat split; reflexivity.
Qed.

Lemma kinds (size : Z) :
  map Draw.kind_of (Draw.drawn (create_geometric_icon size)) =
    if size <=? 19 then
      Draw.KRectangle ::
        (if 16 <=? size then [Draw.KRectangle; Draw.KRectangle; Draw.KRectangle] else [])
    else if size <=? 48 then [Draw.KRectangle; Draw.KPolygon; Draw.KPolygon]
    else [Draw.KPolygon; Draw.KPolygon; Draw.KPolygon; Draw.KLine; Draw.KLine; Draw.KLine]
           ++ (if 128 <=? size then [Draw.KArc; Draw.KArc] else []).
Proof.
  unfold create_geometric_icon. cbv zeta.
  destruct (size <=? 19), (16 <=? size), (size <=? 48), (128 <=? size); reflexivity.
Qed.

Lemma fills (size : Z) :
  map Draw.fill_of (Draw.drawn (create_geometric_icon size)) =
    if size <=? 19 then
      red_color :: (if 16 <=? size then [white_200; white_200; white_200] else [])
    else if size <=? 48 then [red_color; darker_red; darker_red]
    else [red_color; lighter_red; darker_red; edge_red; edge_red; edge_red]
           ++ (if 128 <=? size then [white_200; white_200] else []).
Proof.
  unfold create_geometric_icon. cbv zeta.
  destruct (size <=? 19), (16 <=? size), (size <=? 48), (128 <=? size); reflexivity.
Qed.

Ltac solve_whole :=
  repeat first
    [ apply Py_facts.whole_add | apply Py_facts.whole_sub
    | apply Py_facts.whole_floordiv | apply Py_facts.whole_int
    | apply Py_facts.whole_int_lit ].

(** Whatever the size, no coordinate has a fractional part: the two products
    with a fraction pass through [int], and everything else is built from
    integers by sums, differences and floor quotients. *)
Lemma coordinates_whole (size : Z) :
  Forall whole (flat_map Draw.coordinates (Draw.drawn (create_geometric_icon size))).
Proof.
  unfold create_geometric_icon. cbv zeta.
  destruct (size <=? 19), (16 <=? size), (size <=? 48), (128 <=? size);
    cbn [Draw.drawn Draw.new Draw.rectangle Draw.polygon Draw.line Draw.arc Draw.paint
         app flat_map Draw.coordinates Draw.control_points Draw.points fst snd];
    repeat (apply List.Forall_cons; [solve_whole |]); apply List.Forall_nil.
Qed.

Lemma no_arc_below_128 (size : Z) :
  size < 128 ->
  Forall (fun p => Draw.kind_of p <> Draw.KArc) (Draw.drawn (create_geometric_icon size)).
Proof.
  intros H. apply (Forall_map Draw.kind_of (fun k => k <> Draw.KArc)).
  rewrite kinds.
  destruct (size <=? 19), (16 <=? size), (size <=? 48), (128 <=? size) eqn:E;
    try lia; repeat constructor; discriminate.
Qed.

End Icon_facts.

(** ** Running [generate_icons] *)

Module Driver_facts.
Import Driver.
Local Open Scope string_scope.

Lemma write_file_ok (p parent : string) (d : data) (w : world) :
  dirname p = Some parent ->
  files w !! parent = Some Dir ->
  files w !! p <> Some Dir ->
  write_file p d w =
    (Returned tt, mkWorld (<[p := File d]> (files w)) (written w ++ [p]) (stdout w)).
Proof.
  intros Hd Hp Hn. unfold write_file. rewrite Hd, Hp.
  destruct (files w !! p) as [[| d'] |]; [contradiction | reflexivity | reflexivity].
Qed.

Lemma write_file_returned (p : string) (d : data) (w w' : world) :
  write_file p d w = (Returned tt, w') ->
  files w' = <[p := File d]> (files w).
Proof.
  unfold write_file.
  destruct (dirname p) as [parent |]; [destruct (files w !! parent) as [[| ?] |] |];
    destruct (files w !! p) as [[| ?] |]; intros [= <-]; reflexivity.
Qed.

Lemma bind_returned_inv {A B} (c : M A) (k : A -> M B) (w w' : world) (b : B) :
  bind c k w = (Returned b, w') ->
  exists a w1, c w = (Returned a, w1) /\ k a w1 = (Returned b, w').
Proof.
  unfold bind. destruct (c w) as [[a | e] w1]; [| discriminate].
  intros H. now exists a, w1.
Qed.

(** The directory is there after the first two statements, whether it was
    before or not, and nothing else has changed. *)
Lemma ensure_directory (w : world) :
  files w !! "icons" = None \/ files w !! "icons" = Some Dir ->
  exists m,
    (present <- path_exists "icons" ;;
     if negb present then makedirs "icons" else ret tt) w
      = (Returned tt, mkWorld m (written w) (stdout w)) /\
    m !! "icons" = Some Dir /\
    forall p, p <> "icons" -> m !! p = files w !! p.
Proof.
  intros [H | H]; unfold bind, path_exists, makedirs, ret; rewrite H.
  - exists (<["icons" := Dir]> (files w)).
    rewrite bool_decide_eq_false_2 by (intros [? [=]]). cbn. rewrite H.
    split; [reflexivity |]. split; [apply lookup_insert_eq |].
    intros p Hp. now apply lookup_insert_ne.
  - exists (files w).
    rewrite bool_decide_eq_true_2 by (now eexists). cbn.
    split; [now destruct w |]. split; [exact H | reflexivity].
Qed.

Lemma for_each_save (l : list Z) : forall w,
  files w !! "icons" = Some Dir ->
  Forall (fun size => dirname (output_path size) = Some "icons" /\
                      output_path size <> "icons" /\
                      files w !! output_path size <> Some Dir) l ->
  for_each l (fun size =>
      let img := Icon.create_geometric_icon size in
      save img (output_path size) "PNG" ;;
      print ("[OK] Restored " +:+ output_path size)) w
    = (Returned tt,
       mkWorld (saved l (files w)) (written w ++ map output_path l)
               (stdout w ++ map (fun size => "[OK] Restored " +:+ output_path size) l)).
Proof.
  induction l as [| size l IH]; intros w Hdir Hl.
  - cbn. rewrite !app_nil_r. now destruct w.
  - apply Forall_cons in Hl as [(Hd & Hne & Hnd) Hl].
    cbn [for_each]. unfold bind at 1. cbv zeta. unfold bind at 1, save.
    rewrite (write_file_ok _ _ _ _ Hd Hdir Hnd). unfold print at 1.
    rewrite IH; cbn [files written stdout].
    + cbn [saved foldl map]. now rewrite <- !app_assoc.
    + now rewrite lookup_insert_ne.
    + eapply Forall_impl; [exact Hl |]. cbn beta. intros s (Hd' & Hne' & Hnd').
      split; [exact Hd' |]. split; [exact Hne' |].
      destruct (decide (output_path size = output_path s)) as [-> | Hk].
      * rewrite lookup_insert_eq. discriminate.
      * now rewrite lookup_insert_ne.
Qed.

Lemma bind_assoc {A B C} (c : M A) (k : A -> M B) (k' : B -> M C) (w : world) :
  bind (bind c k) k' w = bind c (fun x => bind (k x) k') w.
Proof. unfold bind. destruct (c w) as [[a | e] w']; reflexivity. Qed.

Lemma bind_returned {A B} (c : M A) (k : A -> M B) (w w' : world) (a : A) :
  c w = (Returned a, w') -> bind c k w = k a w'.
Proof. intros H. unfold bind. now rewrite H. Qed.

Lemma generate_icons_run (w : world) :
  files w !! "icons" = None \/ files w !! "icons" = Some Dir ->
  Forall (fun p => files w !! p <> Some Dir) targets ->
  exists out,
    generate_icons w = (Returned tt, mkWorld (generated (files w)) (written w ++ targets) out).
Proof.
  intros Hdir Htargets.
  destruct (ensure_directory w Hdir) as (m & Hrun & Hm & Hother).
  assert (m = <["icons" := Dir]> (files w)) as ->.
  { apply map_eq. intros p. destruct (decide (p = "icons")) as [-> | Hp].
    - now rewrite lookup_insert_eq.
    - rewrite lookup_insert_ne by congruence. now apply Hother. }
  unfold generate_icons.
  rewrite <- bind_assoc. rewrite (bind_returned _ _ _ _ _ Hrun).
  unfold bind at 1, print at 1. cbn [files written stdout].
  erewrite (bind_returned (for_each sizes _)); [| apply for_each_save; [exact Hm |]].
  - cbn [files written stdout].
    erewrite (bind_returned (write_text svg_path Svg.svg_content)).
    2:{ apply (write_file_ok _ "icons"); cbn [files].
        - reflexivity.
        - unfold saved, sizes. cbn [foldl].
          repeat rewrite lookup_insert_ne by (vm_compute; discriminate). exact Hm.
        - unfold saved, sizes. cbn [foldl].
          repeat rewrite lookup_insert_ne by (vm_compute; discriminate).
          unfold targets in Htargets. apply Forall_app in Htargets as [_ Hsvg].
          now apply List.Forall_inv in Hsvg. }
    cbn [files written stdout]. unfold generated, targets. rewrite <- app_assoc.
    eexists. reflexivity.
  - cbn [files]. unfold targets in Htargets. apply Forall_app in Htargets as [Hpng _].
    unfold sizes in *. cbn [map] in Hpng.
    repeat (apply Forall_cons in Hpng as [? Hpng]).
    repeat (apply List.Forall_cons;
            [split; [reflexivity |]; split; [vm_compute; discriminate |];
             rewrite lookup_insert_ne by (vm_compute; discriminate); assumption |]).
    apply List.Forall_nil.
Qed.

End Driver_facts.

(* ===================================================================== *)
(** * The specification of [create_geometric_icon] *)
(* ===================================================================== *)

Module Icon_spec.
Import Py Icon Icon_facts.

Section Pixels.
Variable covers : Draw.primitive -> Z -> Z -> bool.
Hypothesis covers_confined : Draw.confined covers.

(** C1. For every size >= 1 the canvas returned is RGBA, size x size, and
    every pixel that no drawing call paints is fully transparent; for each of
    the sizes 16, 18, 19, 38, 48 and 128 the four corner pixels are fully
    transparent. *)
Theorem transparent_background (size : Z) :
  1 <= size ->
  let img := create_geometric_icon size in
  Draw.mode img = "RGBA"%string /\
  Draw.size img = (size, size) /\
  (forall x y, Draw.inside img x y = true -> Draw.untouched covers img x y ->
     exists c, Draw.getpixel covers img x y = Some c /\ Draw.alpha c = 0) /\
  (In size [16; 18; 19; 38; 48; 128] ->
     forall x y, In x [0; size - 1] -> In y [0; size - 1] ->
     exists c, Draw.getpixel covers img x y = Some c /\ Draw.alpha c = 0).
Proof.
  intros Hs img. destruct (canvas size) as (Hm & Hsz & Hbg).
  assert (forall x y, Draw.inside img x y = true -> Draw.untouched covers img x y ->
            exists c, Draw.getpixel covers img x y = Some c /\ Draw.alpha c = 0) as Hun.
  { intros x y Hin Hu. exists (0, 0, 0, 0). split; [| reflexivity].
    rewrite (Draw_facts.getpixel_untouched covers img x y Hin Hu).
    unfold img. now rewrite Hbg. }
  repeat split; [exact Hm | exact Hsz | exact Hun |].
  intros Hsize x y Hx Hy. apply Hun.
  - unfold Draw.inside, img. rewrite Hsz. cbn [fst snd].
    cbn in Hx, Hy. destruct Hx as [<- | [<- | []]], Hy as [<- | [<- | []]]; lia.
  - apply (Draw_facts.outside_boxes_untouched covers covers_confined).
    cbn in Hsize, Hx, Hy.
    destruct Hsize as [<- | [<- | [<- | [<- | [<- | [<- | []]]]]]];
      destruct Hx as [<- | [<- | []]], Hy as [<- | [<- | []]];
      vm_compute; reflexivity.
Qed.

End Pixels.

(** C1, at size 16 with the rasteriser that paints whole bounding boxes. *)
Lemma transparent_background_witness :
  1 <= 16 /\
  Draw.confined Draw.bbox /\
  Draw.size (create_geometric_icon 16) = (16, 16) /\
  exists c, Draw.getpixel Draw.bbox (create_geometric_icon 16) 15 0 = Some c /\ Draw.alpha c = 0.
Proof.
  assert (Draw.confined Draw.bbox) as Hc by (intros p x y H; exact H).
  assert (1 <= 16) as H1 by lia.
  split; [exact H1 |]. split; [exact Hc |].
  destruct (transparent_background Draw.bbox Hc 16 H1) as (_ & Hsz & _ & Hcorner).
  split; [exact Hsz |].
  apply Hcorner; cbn; auto.
Defined.

(** C2. The tier is a total function of the size with thresholds 19 and 48:
    sizes up to 19 take the simple path (one square, and three bars from 16
    on), sizes 20 to 48 the medium path (a rectangle and two polygons), larger
    sizes the detailed path (three polygons and three lines, and two arcs from
    128 on); 19 is simple, 20 and 48 are medium, 49 is detailed. *)
Theorem tier_thresholds (size : Z) :
  tier_of (create_geometric_icon size) =
    (if size <=? 19 then Simple else if size <=? 48 then Medium else Detailed) /\
  (size <= 19 <-> tier_of (create_geometric_icon size) = Simple) /\
  (20 <= size <= 48 <-> tier_of (create_geometric_icon size) = Medium) /\
  (48 < size <-> tier_of (create_geometric_icon size) = Detailed) /\
  (size <= 19 ->
     (length (Draw.drawn (create_geometric_icon size)) <= 4)%nat /\
     Forall (fun p => Draw.kind_of p = Draw.KRectangle)
            (Draw.drawn (create_geometric_icon size))) /\
  (20 <= size <= 48 ->
     map Draw.kind_of (Draw.drawn (create_geometric_icon size)) =
       [Draw.KRectangle; Draw.KPolygon; Draw.KPolygon]) /\
  (48 < size ->
     Exists (fun p => Draw.kind_of p = Draw.KLine)
            (Draw.drawn (create_geometric_icon size))) /\
  tier_of (create_geometric_icon 19) = Simple /\
  tier_of (create_geometric_icon 20) = Medium /\
  tier_of (create_geometric_icon 48) = Medium /\
  tier_of (create_geometric_icon 49) = Detailed.
Proof.
  assert (forall l, existsb (Draw.is_kind Draw.KLine) l
                    = existsb (fun k => match k with Draw.KLine => true | _ => false end)
                              (map Draw.kind_of l)) as HL.
  { induction l as [| p l IH]; [reflexivity |]. cbn. rewrite IH. now destruct p. }
  assert (forall l, existsb (Draw.is_kind Draw.KPolygon) l
                    = existsb (fun k => match k with Draw.KPolygon => true | _ => false end)
                              (map Draw.kind_of l)) as HP.
  { induction l as [| p l IH]; [reflexivity |]. cbn. rewrite IH. now destruct p. }
  assert (tier_of (create_geometric_icon size) =
            (if size <=? 19 then Simple else if size <=? 48 then Medium else Detailed)) as Ht.
  { unfold tier_of. rewrite HL, HP, kinds.
    destruct (size <=? 19), (16 <=? size), (size <=? 48), (128 <=? size); reflexivity. }
  pose proof (kinds size) as Hk.
  split; [exact Ht |]. rewrite Ht.
  split.
  { destruct (size <=? 19) eqn:E; [| destruct (size <=? 48)];
      split; intros H; try reflexivity; try discriminate; lia. }
  split.
  { destruct (size <=? 19) eqn:E; [| destruct (size <=? 48) eqn:E'];
      split; intros H; try reflexivity; try discriminate; lia. }
  split.
  { destruct (size <=? 19) eqn:E; [| destruct (size <=? 48) eqn:E'];
      split; intros H; try reflexivity; try discriminate; lia. }
  split.
  { intros H. destruct (size <=? 19) eqn:E; [| lia]. split.
    - rewrite <- (length_map Draw.kind_of), Hk. destruct (16 <=? size); cbn; lia.
    - apply (Forall_map Draw.kind_of (fun k => k = Draw.KRectangle)).
      rewrite Hk. destruct (16 <=? size); repeat constructor. }
  split.
  { intros H. rewrite Hk. destruct (size <=? 19) eqn:E; [lia |].
    destruct (size <=? 48) eqn:E'; [reflexivity | lia]. }
  split.
  { intros H. apply (Exists_fmap Draw.kind_of (fun k => k = Draw.KLine)).
    change (Exists (fun k => k = Draw.KLine)
                   (map Draw.kind_of (Draw.drawn (create_geometric_icon size)))).
    rewrite Hk. destruct (size <=? 19) eqn:E; [lia |].
    destruct (size <=? 48) eqn:E'; [lia |].
    do 3 apply Exists_cons_tl. now apply Exists_cons_hd. }
  repeat split; reflexivity.
Qed.

(** C3 fails: at size 16 the three bars are drawn with alpha 200. *)
Lemma translucent_bars_at_16 :
  ~ Forall (fun p => Draw.alpha (Draw.fill_of p) = 255)
           (Draw.drawn (create_geometric_icon 16)).
Proof.
  intros H. apply Forall_cons_1 in H as [_ H]. apply Forall_cons_1 in H as [H _].
  vm_compute in H. discriminate.
Qed.

(** C3, amended. Every call is a rectangle, a polygon, a line or an arc filled
    or stroked with one flat colour; that colour has alpha 255, except for the
    three bars of the simple tier (sizes 16 to 19) and the two arcs of the
    detailed tier (sizes from 128), which are white with alpha 200. *)
Theorem fills_opaque_except_glyph (size : Z) :
  map Draw.fill_of (Draw.drawn (create_geometric_icon size)) =
    (if size <=? 19 then
       red_color :: (if 16 <=? size then [white_200; white_200; white_200] else [])
     else if size <=? 48 then [red_color; darker_red; darker_red]
     else [red_color; lighter_red; darker_red; edge_red; edge_red; edge_red]
            ++ (if 128 <=? size then [white_200; white_200] else [])) /\
  Forall (fun c => Draw.alpha c = 255) [red_color; darker_red; lighter_red; edge_red] /\
  Draw.alpha white_200 = 200 /\
  Forall (fun p =>
            Draw.alpha (Draw.fill_of p) = 255 \/
            Draw.fill_of p = white_200 /\
            (Draw.kind_of p = Draw.KRectangle /\ 16 <= size <= 19 \/
             Draw.kind_of p = Draw.KArc /\ 128 <= size))
         (Draw.drawn (create_geometric_icon size)).
Proof.
  split; [apply fills |].
  split; [repeat constructor |]. split; [reflexivity |].
  unfold create_geometric_icon. cbv zeta.
  destruct (size <=? 19) eqn:E1; [destruct (16 <=? size) eqn:E2 |
    destruct (size <=? 48) eqn:E3; [| destruct (128 <=? size) eqn:E4]];
    repeat (apply List.Forall_cons;
            [first [ left; reflexivity
                   | right; split; [reflexivity |];
                     first [ left; split; [reflexivity | lia]
                           | right; split; [reflexivity | lia] ] ] |]);
    apply List.Forall_nil.
Qed.

(** C4. For every size above 48 (and below 2^50, so that the floats involved
    are exact) the detailed tier takes the cube side [c = floor(0.4 size)] and
    the offset [o = floor(c / 2.5)], and issues, in this order: the front face,
    an axis-aligned rectangle in the primary colour; the top face, the front
    face's top edge and its translate by the offset vector [(o, -2 (o / 2))],
    in a lighter tint; the right face, the front face's right edge and its
    translate by the same vector, in the darker colour; and three lines of
    width 1 in the darkest colour along the top, right and left edges of the
    front face.  Nothing else is drawn but the arcs of the glyph. *)
Theorem detailed_tier (size : Z) :
  48 < size < 2 ^ 50 ->
  let c := 2 * size / 5 in
  let o := 2 * c / 5 in
  let cx := size / 2 in
  let x1 := cx - c / 2 in
  let x2 := cx + c / 2 in
  let ya := cx - c / 3 + o / 2 in
  let yb := cx + c / 3 + o / 2 in
  let dx := o in
  let dy := - (2 * (o / 2)) in
  int (PInt size * PFloat F64.c0_4) = PInt c /\
  5 * c <= 2 * size < 5 * c + 5 /\
  to_Z (PInt c // PFloat F64.c2_5) = Some o /\
  5 * o <= 2 * c < 5 * o + 5 /\
  exists front top right e_top e_right e_left glyph,
    Draw.drawn (create_geometric_icon size) =
      Draw.Polygon front red_color :: Draw.Polygon top lighter_red ::
      Draw.Polygon right darker_red ::
      Draw.Line e_top edge_red 1 :: Draw.Line e_right edge_red 1 ::
      Draw.Line e_left edge_red 1 :: glyph /\
    Forall (fun p => Draw.kind_of p = Draw.KArc) glyph /\
    map Draw.zpoint front =
      [Some (x1, ya); Some (x1, yb); Some (x2, yb); Some (x2, ya)] /\
    map Draw.zpoint top =
      [Some (x1, ya); Some (x1 + dx, ya + dy); Some (x2 + dx, ya + dy); Some (x2, ya)] /\
    map Draw.zpoint right =
      [Some (x2, ya); Some (x2 + dx, ya + dy); Some (x2 + dx, yb + dy); Some (x2, yb)] /\
    map Draw.zpoint (Draw.points e_top) = [Some (x1, ya); Some (x2, ya)] /\
    map Draw.zpoint (Draw.points e_right) = [Some (x2, ya); Some (x2, yb)] /\
    map Draw.zpoint (Draw.points e_left) = [Some (x1, ya); Some (x1, yb)] /\
    x1 < x2 /\ ya < yb /\ 0 < dx /\ dy < 0 /\
    Draw.lighter red_color lighter_red /\
    Draw.lighter darker_red red_color /\
    Draw.lighter edge_red darker_red.
Proof.
  intros Hs c o cx x1 x2 ya yb dx dy.
  pose proof (detailed_drawn size Hs) as Hd. cbv zeta in Hd.
  fold c o cx x1 x2 in Hd.
  split; [apply Py_facts.int_mul_0_4; lia |].
  split; [unfold c; bounded |].
  split; [rewrite Py_facts.floordiv_int_2_5 by (unfold c; bounded);
          apply Py_facts.to_Z_Fz |].
  split; [unfold o; bounded |].
  do 7 eexists. split; [exact Hd |].
  split; [destruct (128 <=? size); repeat constructor |].
  assert (ya + dy = cx - c / 3 - o / 2) as -> by (unfold ya, dy; lia).
  assert (yb + dy = cx + c / 3 - o / 2) as -> by (unfold yb, dy; lia).
  repeat (split; [zpoints; reflexivity |]).
  split; [unfold x1, x2, c; bounded |].
  split; [unfold ya, yb, c; bounded |].
  split; [unfold dx, o, c; bounded |].
  split; [unfold dy, o, c; bounded |].
  cbn. lia.
Qed.

(** C4 at size 128: the side is 51 and the offset 20. *)
Lemma detailed_tier_witness :
  48 < 128 < 2 ^ 50 /\
  int (PInt 128 * PFloat F64.c0_4) = PInt 51 /\
  to_Z (PInt 51 // PFloat F64.c2_5) = Some 20.
Proof.
  assert (48 < 128 < 2 ^ 50) as H by (vm_compute; split; reflexivity).
  split; [exact H |].
  destruct (detailed_tier 128 H) as (Hc & _ & Ho & _).
  split; [exact Hc | exact Ho].
Defined.

(** C5. For every size from 20 to 48 the medium tier takes the cube side
    [s = floor(0.5 size)] and the depth offset [o = floor(s / 3)], and draws
    exactly three filled regions: the front face, a square in the primary
    colour; the top face, the front face's top edge and its translate by
    [(o, -o)]; the right face, the front face's right edge and its translate by
    [(o, -o)]; both parallelograms in the darker colour, so that two fill
    colours are used. *)
Theorem medium_tier (size : Z) :
  20 <= size <= 48 ->
  let s := size / 2 in
  let o := s / 3 in
  let cx := size / 2 in
  let x1 := cx - s / 2 in
  let y1 := cx - s / 2 + o / 2 in
  let x2 := cx + s / 2 in
  let y2 := cx + s / 2 + o / 2 in
  int (PInt size * PFloat F64.c0_5) = PInt s /\
  2 * s <= size < 2 * s + 2 /\
  (PInt s // PInt 3)%py = PInt o /\
  3 * o <= s < 3 * o + 3 /\
  exists front top right,
    Draw.drawn (create_geometric_icon size) =
      [Draw.Rectangle front red_color; Draw.Polygon top darker_red;
       Draw.Polygon right darker_red] /\
    map Draw.zpoint (Draw.points front) = [Some (x1, y1); Some (x2, y2)] /\
    x2 - x1 = y2 - y1 /\ x1 < x2 /\
    map Draw.zpoint top =
      [Some (x1, y1); Some (x1 + o, y1 - o); Some (x2 + o, y1 - o); Some (x2, y1)] /\
    map Draw.zpoint right =
      [Some (x2, y1); Some (x2 + o, y1 - o); Some (x2 + o, y2 - o); Some (x2, y2)] /\
    0 < o /\
    Draw.lighter darker_red red_color /\
    forall c, In c (map Draw.fill_of (Draw.drawn (create_geometric_icon size)))
              <-> c = red_color \/ c = darker_red.
Proof.
  intros Hs s o cx x1 y1 x2 y2.
  destruct (medium_drawn size Hs) as [Hi Hd]. cbv zeta in Hi, Hd.
  fold s o cx x1 y1 x2 y2 in Hi, Hd.
  split; [exact Hi |].
  split; [unfold s; bounded |].
  split; [reflexivity |].
  split; [unfold o; bounded |].
  do 3 eexists. split; [exact Hd |].
  repeat (split; [zpoints; reflexivity |]).
  split; [unfold x1, x2, y1, y2; lia |].
  split; [unfold x1, x2, s; bounded |].
  repeat (split; [zpoints; reflexivity |]).
  split; [unfold o, s; bounded |].
  split; [cbn; lia |].
  intros c. rewrite Hd. cbn. intuition congruence.
Qed.

(** C5 at size 38: the side is 19 and the offset 6. *)
Lemma medium_tier_witness :
  20 <= 38 <= 48 /\
  int (PInt 38 * PFloat F64.c0_5) = PInt 19 /\
  (PInt 19 // PInt 3)%py = PInt 6.
Proof.
  assert (20 <= 38 <= 48) as H by lia.
  split; [exact H |].
  destruct (medium_tier 38 H) as (Hc & _ & Ho & _).
  split; [exact Hc | exact Ho].
Defined.

Section Simple_pixels.
Variable covers : Draw.primitive -> Z -> Z -> bool.
Hypothesis covers_confined : Draw.confined covers.

(** C6. For every size from 1 to 19 the simple tier draws one square in the
    primary colour, centred on [(size / 2, size / 2)] and reaching
    [floor(0.7 size) / 2] pixels to each side; from size 16 on, and only
    then, it adds three bars in white with alpha 200, each two pixels high,
    one below the other, all inside the square.  Every pixel that is not
    fully transparent lies in the square. *)
Theorem simple_tier (size : Z) :
  1 <= size <= 19 ->
  let b := 7 * size / 10 in
  let c := size / 2 in
  let x1 := c - b / 2 in
  let x2 := c + b / 2 in
  let img := create_geometric_icon size in
  int (PInt size * PFloat F64.c0_7) = PInt b /\
  10 * b <= 7 * size < 10 * b + 10 /\
  exists square bars,
    Draw.drawn img = Draw.Rectangle square red_color :: bars /\
    map Draw.zpoint (Draw.points square) = [Some (x1, x1); Some (x2, x2)] /\
    (size < 16 -> bars = []) /\
    (16 <= size ->
       exists upper middle lower,
         bars = [Draw.Rectangle upper white_200; Draw.Rectangle middle white_200;
                 Draw.Rectangle lower white_200] /\
         map Draw.zpoint (Draw.points upper) = [Some (x1 + 2, x1 + 2); Some (x2 - 2, x1 + 3)] /\
         map Draw.zpoint (Draw.points middle) = [Some (x1 + 2, c - 1); Some (x2 - 2, c)] /\
         map Draw.zpoint (Draw.points lower) = [Some (x1 + 2, x2 - 3); Some (x2 - 2, x2 - 2)] /\
         x1 < x1 + 2 < x2 - 2 /\ x2 - 2 < x2 /\
         x1 < x1 + 2 /\ x1 + 3 < c - 1 /\ c < x2 - 3 /\ x2 - 2 < x2) /\
    Draw.alpha white_200 = 200 /\
    forall x y col,
      Draw.getpixel covers img x y = Some col -> Draw.alpha col <> 0 ->
      x1 <= x <= x2 /\ x1 <= y <= x2.
Proof.
  intros Hs b c x1 x2 img.
  destruct (simple_drawn size Hs) as [Hi Hd]. cbv zeta in Hi, Hd.
  fold b c x1 x2 in Hi, Hd. fold img in Hd.
  split; [exact Hi |].
  split; [unfold b; bounded |].
  do 2 eexists. split; [exact Hd |].
  split; [zpoints; reflexivity |].
  split; [intros H; destruct (16 <=? size) eqn:E; [lia | reflexivity] |].
  assert (16 <= size -> x1 + 3 < c - 1 /\ c < x2 - 3) as Hbars.
  { intros H. unfold x1, x2, c, b. bounded. }
  split.
  { intros H. destruct (16 <=? size) eqn:E; [| lia]. specialize (Hbars H).
    do 3 eexists. split; [reflexivity |].
    repeat (split; [zpoints; reflexivity |]). lia. }
  split; [reflexivity |].
  intros x y col Hpx Ha.
  assert (col <> Draw.background img) as Hne.
  { unfold img. destruct (canvas size) as (_ & _ & ->).
    intros ->. now apply Ha. }
  pose proof (Draw_facts.painted_in_box covers covers_confined img x y col Hpx Hne) as Hex.
  rewrite Hd in Hex.
  assert (x1 <= x2) as Hx by (unfold x1, x2, b; bounded).
  apply Exists_cons in Hex as [Hb | Hex].
  { apply Draw_facts.bbox_rectangle in Hb; lia. }
  destruct (16 <=? size) eqn:E; [| now apply Exists_nil in Hex].
  specialize (Hbars ltac:(lia)).
  repeat (apply Exists_cons in Hex as [Hb | Hex]; [apply Draw_facts.bbox_rectangle in Hb; lia |]).
  now apply Exists_nil in Hex.
Qed.

End Simple_pixels.

(** C6 at size 16, with the rasteriser that paints whole bounding boxes: the
    box size is 11. *)
Lemma simple_tier_witness :
  1 <= 16 <= 19 /\
  Draw.confined Draw.bbox /\
  int (PInt 16 * PFloat F64.c0_7) = PInt 11.
Proof.
  assert (Draw.confined Draw.bbox) as Hc by (intros p x y H; exact H).
  assert (1 <= 16 <= 19) as H by lia.
  split; [exact H |]. split; [exact Hc |].
  destruct (simple_tier Draw.bbox Hc 16 H) as (Hb & _).
  exact Hb.
Defined.

(** C7 fails: at size 128 the arcs are not semicircular.  The box of each is
    16 wide and 8 high, so each arc is half of an ellipse twice as wide as it
    is high. *)
Lemma arcs_not_semicircular_at_128 :
  ~ Forall (fun p => Draw.kind_of p = Draw.KArc -> Draw.semicircular p = true)
           (Draw.drawn (create_geometric_icon 128)).
Proof.
  intros H. do 6 apply Forall_cons_1 in H as [_ H]. apply Forall_cons_1 in H as [H _].
  specialize (H eq_refl). vm_compute in H. discriminate.
Qed.

(** C7, amended. The glyph is drawn exactly from size 128 on.  Below 128 no
    call is an arc (so none at 127).  From 128 on (and below 2^50) the last two
    calls, and only they, are arcs: one from 0 to 180 degrees and one from 180
    to 360 degrees, each stroked 3 wide in white with alpha 200.  Their boxes
    are [2 h] wide and [h] high with [h = c / 3 / 2], one on top of the other,
    so each arc is half of an ellipse twice as wide as it is high and neither
    is semicircular.  The boxes meet at [(size / 2, size / 2 + o / 4)], which
    is on the vertical axis of the front face and below the centre of the
    canvas by less than [h]; both boxes lie inside the front face. *)
Theorem s_glyph (size : Z) :
  (size < 128 ->
     Forall (fun p => Draw.kind_of p <> Draw.KArc)
            (Draw.drawn (create_geometric_icon size))) /\
  (128 <= size < 2 ^ 50 ->
     let c := 2 * size / 5 in
     let o := 2 * c / 5 in
     let cx := size / 2 in
     let h := c / 3 / 2 in
     let sy := cx + o / 4 in
     let x1 := cx - c / 2 in
     let x2 := cx + c / 2 in
     let ya := cx - c / 3 + o / 2 in
     let yb := cx + c / 3 + o / 2 in
     exists faces upper lower,
       Draw.drawn (create_geometric_icon size) =
         faces ++ [Draw.Arc upper 0 180 white_200 3; Draw.Arc lower 180 360 white_200 3] /\
       Forall (fun p => Draw.kind_of p <> Draw.KArc) faces /\
       map Draw.zpoint (Draw.points upper) = [Some (cx - h, sy - h); Some (cx + h, sy)] /\
       map Draw.zpoint (Draw.points lower) = [Some (cx - h, sy); Some (cx + h, sy + h)] /\
       Draw.alpha white_200 = 200 /\
       0 < h /\ cx < sy /\ sy - cx < h /\
       x1 + x2 = 2 * cx /\
       x1 <= cx - h /\ cx + h <= x2 /\ ya <= sy - h /\ sy + h <= yb /\
       Draw.semicircular (Draw.Arc upper 0 180 white_200 3) = false /\
       Draw.semicircular (Draw.Arc lower 180 360 white_200 3) = false) /\
  filter (Draw.is_kind Draw.KArc) (Draw.drawn (create_geometric_icon 127)) = [] /\
  length (filter (Draw.is_kind Draw.KArc) (Draw.drawn (create_geometric_icon 128))) = 2%nat.
Proof.
  split; [apply no_arc_below_128 |].
  split; [| split; reflexivity].
  intros Hs c o cx h sy x1 x2 ya yb.
  pose proof (detailed_drawn size ltac:(lia)) as Hd. cbv zeta in Hd.
  fold c o cx h sy x1 x2 in Hd.
  destruct (128 <=? size) eqn:E; [| lia].
  assert (0 < h) as Hh by (unfold h, c; bounded).
  do 3 eexists. split; [exact Hd |].
  split; [repeat constructor; discriminate |].
  do 2 (split; [zpoints; reflexivity |]).
  split; [reflexivity |].
  repeat (split; [unfold h, sy, x1, x2, ya, yb, cx, o, c; bounded |]).
  unfold Draw.semicircular. zpoints.
  split; apply andb_false_intro2, Z.eqb_neq; lia.
Qed.

(** C7 at size 128: the two arcs and their boxes. *)
Lemma s_glyph_witness :
  128 <= 128 < 2 ^ 50 /\
  exists faces upper lower,
    Draw.drawn (create_geometric_icon 128) =
      faces ++ [Draw.Arc upper 0 180 white_200 3; Draw.Arc lower 180 360 white_200 3] /\
    map Draw.zpoint (Draw.points upper) = [Some (56, 61); Some (72, 69)] /\
    map Draw.zpoint (Draw.points lower) = [Some (56, 69); Some (72, 77)].
Proof.
  assert (128 <= 128 < 2 ^ 50) as H by (vm_compute; split; [discriminate | reflexivity]).
  split; [exact H |].
  destruct (s_glyph 128) as (_ & Hg & _).
  destruct (Hg H) as (faces & upper & lower & Hd & _ & Hu & Hl & _).
  exists faces, upper, lower. split; [exact Hd |]. split; [exact Hu | exact Hl].
Defined.

(** C10. For every size from 1 every coordinate handed to a drawing call is
    integral.  Below 2^50, where the floats involved are exact, the
    coordinates are those of floor arithmetic ([/] on integers is the floor of
    the quotient): each product with a fraction goes through [int], which
    yields its floor, and every other quotient is a floor division.  In the
    detailed tier the offset is the float [floor(0.4 size) // 2.5], which
    denotes [o = floor(floor(0.4 size) / 2.5)]; its floor quotients by 2 and by
    4 are again floats, denoting the floors of [o / 2] and of [o / 4]; the
    coordinates built from them are listed once as the script computes them
    and once by the integers they denote. *)
Theorem coordinates_integral (size : Z) :
  1 <= size ->
  Forall (fun p => Forall integral (Draw.coordinates p))
         (Draw.drawn (create_geometric_icon size)) /\
  (size <= 19 ->
     let b := 7 * size / 10 in
     let c := size / 2 in
     let x1 := c - b / 2 in
     let x2 := c + b / 2 in
     int (PInt size * PFloat F64.c0_7) = PInt b /\
     10 * b <= 7 * size < 10 * b + 10 /\
     flat_map Draw.coordinates (Draw.drawn (create_geometric_icon size)) =
       map PInt
         ([x1; x1; x2; x2] ++
          (if 16 <=? size then
             [x1 + 2; x1 + 2; x2 - 2; x1 + 3;
              x1 + 2; c - 1; x2 - 2; c;
              x1 + 2; x2 - 3; x2 - 2; x2 - 2]
           else []))) /\
  (20 <= size <= 48 ->
     let s := size / 2 in
     let o := s / 3 in
     let c := size / 2 in
     let x1 := c - s / 2 in
     let y1 := c - s / 2 + o / 2 in
     let x2 := c + s / 2 in
     let y2 := c + s / 2 + o / 2 in
     int (PInt size * PFloat F64.c0_5) = PInt s /\
     2 * s <= size < 2 * s + 2 /\
     flat_map Draw.coordinates (Draw.drawn (create_geometric_icon size)) =
       map PInt
         [x1; y1; x2; y2;
          x1; y1; x1 + o; y1 - o; x2 + o; y1 - o; x2; y1;
          x2; y1; x2 + o; y1 - o; x2 + o; y2 - o; x2; y2]) /\
  (48 < size < 2 ^ 50 ->
     let c := 2 * size / 5 in
     let o := 2 * c / 5 in
     let offset := (PInt c // PFloat F64.c2_5)%py in
     let cx := size / 2 in
     let x1 := cx - c / 2 in
     let x2 := cx + c / 2 in
     let y1 := cx - c / 3 in
     let y2 := cx + c / 3 in
     let h := c / 3 / 2 in
     let sy := (PInt cx + offset // PInt 4)%py in
     int (PInt size * PFloat F64.c0_4) = PInt c /\
     5 * c <= 2 * size < 5 * c + 5 /\
     (exists f, offset = PFloat f /\ F64.denotes f o) /\
     5 * o <= 2 * c < 5 * o + 5 /\
     (exists f, (offset // PInt 2)%py = PFloat f /\ F64.denotes f (o / 2)) /\
     (exists f, (offset // PInt 4)%py = PFloat f /\ F64.denotes f (o / 4)) /\
     flat_map Draw.coordinates (Draw.drawn (create_geometric_icon size)) =
       ([PInt x1; PInt y1 + offset // PInt 2; PInt x1; PInt y2 + offset // PInt 2;
         PInt x2; PInt y2 + offset // PInt 2; PInt x2; PInt y1 + offset // PInt 2;
         PInt x1; PInt y1 + offset // PInt 2; PInt x1 + offset; PInt y1 - offset // PInt 2;
         PInt x2 + offset; PInt y1 - offset // PInt 2; PInt x2; PInt y1 + offset // PInt 2;
         PInt x2; PInt y1 + offset // PInt 2; PInt x2 + offset; PInt y1 - offset // PInt 2;
         PInt x2 + offset; PInt y2 - offset // PInt 2; PInt x2; PInt y2 + offset // PInt 2;
         PInt x1; PInt y1 + offset // PInt 2; PInt x2; PInt y1 + offset // PInt 2;
         PInt x2; PInt y1 + offset // PInt 2; PInt x2; PInt y2 + offset // PInt 2;
         PInt x1; PInt y1 + offset // PInt 2; PInt x1; PInt y2 + offset // PInt 2]
        ++ (if 128 <=? size then
              [PInt (cx - h); sy - PInt h; PInt (cx + h); sy;
               PInt (cx - h); sy; PInt (cx + h); sy + PInt h]
            else []))%py /\
     map to_Z (flat_map Draw.coordinates (Draw.drawn (create_geometric_icon size))) =
       map Some
         ([x1; y1 + o / 2; x1; y2 + o / 2; x2; y2 + o / 2; x2; y1 + o / 2;
           x1; y1 + o / 2; x1 + o; y1 - o / 2; x2 + o; y1 - o / 2; x2; y1 + o / 2;
           x2; y1 + o / 2; x2 + o; y1 - o / 2; x2 + o; y2 - o / 2; x2; y2 + o / 2;
           x1; y1 + o / 2; x2; y1 + o / 2;
           x2; y1 + o / 2; x2; y2 + o / 2;
           x1; y1 + o / 2; x1; y2 + o / 2]
          ++ (if 128 <=? size then
                [cx - h; cx + o / 4 - h; cx + h; cx + o / 4;
                 cx - h; cx + o / 4; cx + h; cx + o / 4 + h]
              else []))).
Proof.
  intros Hs.
  split.
  { apply Forall_flat_map. eapply Forall_impl; [apply coordinates_whole |].
    apply Py_facts.whole_integral. }
  split.
  { intros H b c x1 x2. destruct (simple_drawn size ltac:(lia)) as [Hi Hd].
    cbv zeta in Hi, Hd. fold b c x1 x2 in Hi, Hd.
    split; [exact Hi |]. split; [unfold b; bounded |].
    rewrite Hd. destruct (16 <=? size); reflexivity. }
  split.
  { intros H s o c x1 y1 x2 y2. destruct (medium_drawn size ltac:(lia)) as [Hi Hd].
    cbv zeta in Hi, Hd. fold s o c x1 y1 x2 y2 in Hi, Hd.
    split; [exact Hi |]. split; [unfold s; bounded |].
    rewrite Hd. reflexivity. }
  intros H c o offset cx x1 x2 y1 y2 h sy.
  split; [apply Py_facts.int_mul_0_4; lia |].
  split; [unfold c; bounded |].
  assert (offset = Fz o) as Ho.
  { unfold offset. apply Py_facts.floordiv_int_2_5. unfold c. bounded. }
  assert ((offset // PInt 2)%py = Fz (o / 2)) as Ho2.
  { rewrite Ho. apply Py_facts.floordiv_Fz_int; unfold o, c; bounded. }
  assert ((offset // PInt 4)%py = Fz (o / 4)) as Ho4.
  { rewrite Ho. apply Py_facts.floordiv_Fz_int; unfold o, c; bounded. }
  split; [eexists; split; [exact Ho | apply F64_facts.denotes_norm] |].
  split; [unfold o; bounded |].
  split; [eexists; split; [exact Ho2 | apply F64_facts.denotes_norm] |].
  split; [eexists; split; [exact Ho4 | apply F64_facts.denotes_norm] |].
  split.
  { unfold create_geometric_icon.
    destruct (size <=? 19) eqn:E1; [lia |].
    destruct (size <=? 48) eqn:E2; [lia |].
    cbv zeta. rewrite Py_facts.int_mul_0_4 by lia. fold c. fold offset.
    rewrite !floordiv_int_int, !add_int_int, !sub_int_int.
    fold cx. fold x1 x2 y1 y2. 
    destruct (128 <=? size); reflexivity. }
  pose proof (detailed_drawn size H) as Hd. cbv zeta in Hd.
  fold c o cx x1 x2 y1 y2 h in Hd. rewrite Hd.
  destruct (128 <=? size);
    cbn [flat_map Draw.coordinates Draw.control_points Draw.points app map fst snd];
    rewrite ?Py_facts.to_Z_Fz; reflexivity.
Qed.

(** C10 at size 128, the largest icon generated: the side is 51, the offset
    20, and the coordinates are these integers. *)
Lemma coordinates_integral_witness :
  1 <= 128 /\
  Forall (fun p => Forall integral (Draw.coordinates p))
         (Draw.drawn (create_geometric_icon 128)) /\
  map to_Z (flat_map Draw.coordinates (Draw.drawn (create_geometric_icon 128))) =
    map Some
      [39; 57; 39; 91; 89; 91; 89; 57;
       39; 57; 59; 37; 109; 37; 89; 57;
       89; 57; 109; 37; 109; 71; 89; 91;
       39; 57; 89; 57;
       89; 57; 89; 91;
       39; 57; 39; 91;
       56; 61; 72; 69;
       56; 69; 72; 77].
Proof.
  assert (1 <= 128) as H by lia.
  split; [exact H |].
  destruct (coordinates_integral 128 H) as (Hi & _ & _ & Hd).
  split; [exact Hi |].
  assert (48 < 128 < 2 ^ 50) as H' by (vm_compute; split; reflexivity).
  destruct (Hd H') as (_ & _ & _ & _ & _ & _ & _ & Hz).
  exact Hz.
Defined.

End Icon_spec.

(* ===================================================================== *)
(** * The specification of [generate_icons] *)
(* ===================================================================== *)

Module Driver_spec.
Import Svg Driver Driver_facts.
Local Open Scope string_scope.

Ltac lookup_generated :=
  unfold generated, saved, sizes, svg_path; cbn [foldl];
  repeat rewrite lookup_insert_ne by (vm_compute; discriminate).

(** C8. Started where [icons] is absent or is a directory (and no file to be
    written is itself a directory), [generate_icons] returns without raising;
    afterwards [icons] is a directory, each [icons/<size>.png] for the sizes
    16, 18, 19, 38, 48, 128 holds the image made for that size, and
    [icons/secure-share-icon-transparent.svg] holds the vector document,
    whatever these paths held before.  The files are written in that order,
    the vector document last, and nothing else is touched. *)
Theorem generate_icons_writes (w : world) :
  files w !! "icons" = None \/ files w !! "icons" = Some Dir ->
  Forall (fun p => files w !! p <> Some Dir) targets ->
  exists w',
    generate_icons w = (Returned tt, w') /\
    files w' !! "icons" = Some Dir /\
    sizes = [16; 18; 19; 38; 48; 128]%Z /\
    Forall (fun size =>
              files w' !! ("icons/" +:+ pretty size +:+ ".png")
              = Some (File (Encoded "PNG" (Icon.create_geometric_icon size)))) sizes /\
    files w' !! "icons/secure-share-icon-transparent.svg"
      = Some (File (Text Svg.svg_content)) /\
    written w' = (written w ++
      ["icons/16.png"; "icons/18.png"; "icons/19.png"; "icons/38.png"; "icons/48.png";
       "icons/128.png"; "icons/secure-share-icon-transparent.svg"])%list /\
    forall p, p <> "icons" -> ~ In p targets ->
              files w' !! p = files w !! p.
Proof.
  intros Hdir Htargets.
  destruct (generate_icons_run w Hdir Htargets) as [out Hrun].
  eexists. split; [exact Hrun |]. cbn [files written].
  split; [lookup_generated; apply lookup_insert_eq |].
  split; [reflexivity |].
  split.
  { repeat (apply List.Forall_cons;
            [change ("icons/" +:+ pretty ?s +:+ ".png") with (output_path s);
             lookup_generated; apply lookup_insert_eq |]).
    apply List.Forall_nil. }
  split; [unfold generated; apply lookup_insert_eq |].
  split; [reflexivity |].
  intros p Hp Hnot. unfold generated, saved, sizes. cbn [foldl].
  repeat (rewrite lookup_insert_ne;
          [| intros <-; first [now apply Hp | apply Hnot; vm_compute; tauto]]).
  reflexivity.
Qed.

(** C8 from an empty file system. *)
Lemma generate_icons_writes_witness :
  exists w',
    generate_icons empty_world = (Returned tt, w') /\
    files w' !! "icons" = Some Dir /\
    files w' !! "icons/secure-share-icon-transparent.svg"
      = Some (File (Text Svg.svg_content)).
Proof.
  assert (files empty_world !! "icons" = None \/ files empty_world !! "icons" = Some Dir) as H1
    by (left; reflexivity).
  assert (Forall (fun p => files empty_world !! p <> Some Dir)
                 targets) as H2
    by (apply List.Forall_forall; intros p _; discriminate).
  destruct (generate_icons_writes empty_world H1 H2) as (w' & Hrun & Hd & _ & _ & Hsvg & _).
  exists w'. split; [exact Hrun |]. split; [exact Hd | exact Hsvg].
Defined.

(** C9. The vector document is a constant of the script.  Read as XML it is
    one [svg] element of width and height 128 with two children: a [rect]
    covering the canvas with [fill] transparent and [opacity] 0, and a group
    with a transform and the fill [#d94343] holding one nested group with a
    transform, which holds six [path] elements.  These are the only [rect],
    [g] and [path] elements; no path has an attribute besides its data, so all
    six are painted with the fill inherited from the outer group.  Whatever
    the run, the file [generate_icons] leaves at the vector path holds this
    document. *)
Theorem vector_document :
  (exists paths,
     parse svg_content =
       Some (Element "svg"
               [("width", "128"); ("height", "128"); ("viewBox", "0 0 128 128");
                ("xmlns", "http://www.w3.org/2000/svg")]
               [Element "rect"
                  [("width", "128"); ("height", "128"); ("fill", "transparent");
                   ("opacity", "0")] [];
                Element "g"
                  [("transform", "translate(64, 64) scale(1.4)"); ("fill", "#d94343")]
                  [Element "g" [("transform", "translate(-25, -25) scale(1.0)")] paths]]) /\
     length paths = 6%nat /\
     Forall (fun e => tag e = "path" /\ map fst (attrs e) = ["d"] /\ children e = []) paths) /\
  (exists root,
     parse svg_content = Some root /\
     count "rect" root = 1%nat /\ count "g" root = 2%nat /\ count "path" root = 6%nat /\
     map (fun x => (fst (fst x), snd (fst x))) (located "path" [] None root)
       = repeat (["svg"; "g"; "g"], Some "#d94343") 6) /\
  (forall w w',
     generate_icons w = (Returned tt, w') ->
     files w' !! svg_path = Some (File (Text svg_content))).
Proof.
  split; [| split].
  - eexists. split; [vm_compute; reflexivity |].
    split; [reflexivity |]. repeat constructor.
  - eexists. split; [vm_compute; reflexivity |]. vm_compute. repeat split; reflexivity.
  - intros w w' Hrun. unfold generate_icons in Hrun.
    do 4 (apply Driver_facts.bind_returned_inv in Hrun as (? & ? & _ & Hrun)).
    apply Driver_facts.bind_returned_inv in Hrun as ([] & w1 & Hwrite & Hrun).
    unfold write_text in Hwrite.
    apply Driver_facts.write_file_returned in Hwrite.
    unfold bind, print in Hrun. cbn in Hrun.
    injection Hrun as <-. cbn [files]. rewrite Hwrite. apply lookup_insert_eq.
Qed.

End Driver_spec.

(* ===================================================================== *)
(** * Further properties of [generate_icons] *)
(* ===================================================================== *)

(** ** Runs that succeed and runs that fail *)

Module Driver_runs.
Import Driver Driver_facts Report.
Local Open Scope string_scope.

Lemma bind_raised {A B} (c : M A) (k : A -> M B) (w w' : world) (e : error) :
  c w = (Raised e, w') -> bind c k w = (Raised e, w').
Proof. intros H. unfold bind. now rewrite H. Qed.

Lemma write_file_onto_directory (p parent : string) (d : data) (w : world) :
  dirname p = Some parent ->
  files w !! parent = Some Dir ->
  files w !! p = Some Dir ->
  write_file p d w = (Raised IsADirectoryError, w).
Proof. intros Hd Hp Hn. unfold write_file. now rewrite Hd, Hp, Hn. Qed.

Lemma write_file_under_file (p parent : string) (d d0 : data) (w : world) :
  dirname p = Some parent ->
  files w !! parent = Some (File d0) ->
  write_file p d w = (Raised NotADirectoryError, w).
Proof. intros Hd Hp. unfold write_file. now rewrite Hd, Hp. Qed.

Lemma bind_ext {A B} (c : M A) (k k' : A -> M B) (w : world) :
  (forall a w1, k a w1 = k' a w1) -> bind c k w = bind c k' w.
Proof.
  intros H. unfold bind. destruct (c w) as [[a | e] w1]; [apply H | reflexivity].
Qed.

Lemma for_each_app {A} (l1 l2 : list A) (body : A -> M unit) (w : world) :
  for_each (l1 ++ l2) body w = bind (for_each l1 body) (fun _ => for_each l2 body) w.
Proof.
  revert w. induction l1 as [| x l1 IH]; intros w; cbn [app for_each].
  - reflexivity.
  - rewrite bind_assoc. apply bind_ext. intros _ w1. apply IH.
Qed.

(** The paths of the rasters lie in [icons] and differ from it and from the
    path of the vector document. *)
Lemma raster_path (size : Z) :
  In size sizes ->
  dirname (output_path size) = Some "icons" /\
  output_path size <> "icons" /\
  output_path size <> svg_path.
Proof.
  unfold sizes. cbn [In].
  intros [<- | [<- | [<- | [<- | [<- | [<- | []]]]]]];
    (split; [reflexivity |]; split; vm_compute; discriminate).
Qed.

Lemma lookup_saved_other (l : list Z) : forall (m : gmap string entry) (p : string),
  ~ In p (map output_path l) -> saved l m !! p = m !! p.
Proof.
  induction l as [| size l IH]; intros m p Hp; cbn [saved foldl]; [reflexivity |].
  cbn [map In] in Hp. fold (saved l (<[output_path size := File (Encoded "PNG" (Icon.create_geometric_icon size))]> m)).
  rewrite IH by tauto. apply lookup_insert_ne. tauto.
Qed.

Lemma lookup_saved_in (l : list Z) : forall (m : gmap string entry) (p : string),
  In p (map output_path l) -> exists d, saved l m !! p = Some (File d).
Proof.
  induction l as [| size l IH]; intros m p Hp; cbn [map In] in Hp; [contradiction |].
  cbn [saved foldl]. fold (saved l (<[output_path size := File (Encoded "PNG" (Icon.create_geometric_icon size))]> m)).
  destruct (in_dec string_dec p (map output_path l)) as [Hin | Hout].
  - now apply IH.
  - destruct Hp as [<- | Hp]; [| contradiction].
    rewrite lookup_saved_other by exact Hout. rewrite lookup_insert_eq. now eexists.
Qed.

(** The loop stops at the first raster whose path is a directory: the rasters
    before it are stored and reported, nothing after it is tried. *)
Lemma for_each_save_aborts (l1 l2 : list Z) (size : Z) (w : world) :
  files w !! "icons" = Some Dir ->
  Forall (fun s => In s sizes) (l1 ++ [size]) ->
  Forall (fun s => files w !! output_path s <> Some Dir) l1 ->
  files w !! output_path size = Some Dir ->
  for_each (l1 ++ size :: l2) (fun size =>
      let img := Icon.create_geometric_icon size in
      save img (output_path size) "PNG" ;;
      print ("[OK] Restored " +:+ output_path size)) w
    = (Raised IsADirectoryError,
       mkWorld (saved l1 (files w)) (written w ++ map output_path l1)
               (stdout w ++ map restored (map output_path l1))).
Proof.
  intros Hdir Hin Hl1 Hsize.
  apply Forall_app in Hin as [Hin1 Hin2]. apply List.Forall_inv in Hin2.
  rewrite for_each_app.
  erewrite bind_returned.
  2:{ apply for_each_save; [exact Hdir |].
      apply List.Forall_forall. intros s Hs.
      destruct (raster_path s) as (? & ? & ?).
      - rewrite List.Forall_forall in Hin1. now apply Hin1.
      - repeat split; try assumption. rewrite List.Forall_forall in Hl1. now apply Hl1. }
  cbn [for_each]. apply bind_raised. cbv zeta. apply bind_raised. unfold save.
  rewrite (write_file_onto_directory _ "icons"); cbn [files].
  - rewrite map_map. reflexivity.
  - now apply raster_path.
  - rewrite lookup_saved_other; [exact Hdir |].
    intros Hicons. apply in_map_iff in Hicons as (s & Hs & Hs').
    rewrite List.Forall_forall in Hin1. destruct (raster_path s (Hin1 s Hs')) as (_ & Hne & _).
    contradiction.
  - rewrite lookup_saved_other; [exact Hsize |].
    intros Hp. apply in_map_iff in Hp as (s & Hs & Hs').
    rewrite List.Forall_forall in Hl1. apply (Hl1 s Hs'). now rewrite Hs.
Qed.

Lemma insert_directory (w : world) (m : gmap string entry) :
  m !! "icons" = Some Dir ->
  (forall p, p <> "icons" -> m !! p = files w !! p) ->
  m = <["icons" := Dir]> (files w).
Proof.
  intros Hm Hother. apply map_eq. intros p.
  destruct (decide (p = "icons")) as [-> | Hp].
  - now rewrite lookup_insert_eq.
  - rewrite lookup_insert_ne by congruence. now apply Hother.
Qed.

(** Step over the first three statements of [generate_icons]. *)
Ltac start Hdir :=
  let m := fresh "m" in
  let Hrun := fresh "Hrun" in
  let Hm := fresh "Hm" in
  let Hother := fresh "Hother" in
  destruct (ensure_directory _ Hdir) as (m & Hrun & Hm & Hother);
  rewrite (insert_directory _ m Hm Hother) in Hrun;
  unfold generate_icons;
  rewrite <- bind_assoc; rewrite (bind_returned _ _ _ _ _ Hrun);
  unfold bind at 1, print at 1; cbn [files written stdout];
  clear m Hrun Hm Hother.

Lemma started_icons (w : world) : files (started w) !! "icons" = Some Dir.
Proof. apply lookup_insert_eq. Qed.

Lemma started_lookup (w : world) (p : string) :
  p <> "icons" -> files (started w) !! p = files w !! p.
Proof. intros H. cbn. now rewrite lookup_insert_ne. Qed.

Lemma rasters_not_directories (w : world) (l : list Z) :
  Forall (fun s => In s sizes) l ->
  Forall (fun s => files w !! output_path s <> Some Dir) l ->
  Forall (fun s => files (started w) !! output_path s <> Some Dir) l.
Proof.
  intros Hin Hl. apply List.Forall_forall. intros s Hs.
  rewrite List.Forall_forall in Hin, Hl.
  rewrite started_lookup; [now apply Hl | now apply raster_path, Hin].
Qed.

Lemma rasters_ready (w : world) :
  Forall (fun s => files w !! output_path s <> Some Dir) sizes ->
  Forall (fun s => dirname (output_path s) = Some "icons" /\
                   output_path s <> "icons" /\
                   files (started w) !! output_path s <> Some Dir) sizes.
Proof.
  intros Hl. apply List.Forall_forall. intros s Hs.
  destruct (raster_path s Hs) as (? & ? & ?). repeat split; try assumption.
  rewrite started_lookup by assumption.
  rewrite List.Forall_forall in Hl. now apply Hl.
Qed.

Lemma run_succeeds (w : world) :
  files w !! "icons" = None \/ files w !! "icons" = Some Dir ->
  Forall (fun p => files w !! p <> Some Dir) targets ->
  generate_icons w =
    (Returned tt,
     mkWorld (generated (files w)) (written w ++ targets)
             (stdout w ++ banner :: map restored (map output_path sizes) ++ summary)).
Proof.
  intros Hdir Htargets. unfold targets in Htargets.
  apply Forall_app in Htargets as [Hpng Hsvg]. apply List.Forall_inv in Hsvg.
  assert (Forall (fun s => files w !! output_path s <> Some Dir) sizes) as Hpng'.
  { apply List.Forall_forall. intros s Hs. rewrite List.Forall_forall in Hpng.
    apply Hpng. now apply in_map. }
  start Hdir. fold (started w).
  erewrite (bind_returned (for_each sizes _)).
  2:{ apply for_each_save; [apply started_icons |].
      now apply rasters_ready. }
  erewrite (bind_returned (write_text svg_path Svg.svg_content)).
  2:{ apply (write_file_ok _ "icons"); cbn [files].
      - reflexivity.
      - rewrite lookup_saved_other; [apply lookup_insert_eq |].
        intros H. apply in_map_iff in H as (s & Hs & Hs').
        now destruct (raster_path s Hs') as (_ & ? & _).
      - rewrite lookup_saved_other.
        + rewrite lookup_insert_ne by (vm_compute; discriminate). exact Hsvg.
        + intros H. apply in_map_iff in H as (s & Hs & Hs').
          now destruct (raster_path s Hs') as (_ & _ & ?). }
  unfold bind, print. cbn [files written stdout]. unfold generated, targets, summary.
  rewrite map_map. f_equal. f_equal.
  - now rewrite <- app_assoc.
  - repeat rewrite <- app_assoc. reflexivity.
Qed.

Lemma run_under_file (w : world) (d0 : data) :
  files w !! "icons" = Some (File d0) ->
  generate_icons w =
    (Raised NotADirectoryError, mkWorld (files w) (written w) (stdout w ++ [banner])).
Proof.
  intros H. unfold generate_icons.
  unfold bind at 1, path_exists. rewrite bool_decide_eq_true_2 by (rewrite H; eauto).
  cbn [negb]. unfold bind at 1, ret. unfold bind at 1, print at 1.
  cbn [files written stdout].
  apply bind_raised. unfold sizes. cbn [for_each].
  apply bind_raised. cbv zeta. apply bind_raised. unfold save.
  now apply (write_file_under_file _ "icons" _ d0).
Qed.

Lemma run_aborts_at_raster (w : world) (l1 l2 : list Z) (size : Z) :
  files w !! "icons" = None \/ files w !! "icons" = Some Dir ->
  sizes = (l1 ++ size :: l2)%list ->
  Forall (fun s => files w !! output_path s <> Some Dir) l1 ->
  files w !! output_path size = Some Dir ->
  generate_icons w =
    (Raised IsADirectoryError,
     mkWorld (saved l1 (<["icons" := Dir]> (files w))) (written w ++ map output_path l1)
             (stdout w ++ banner :: map restored (map output_path l1))).
Proof.
  intros Hdir Hsplit Hl1 Hsize.
  assert (Forall (fun s => In s sizes) (l1 ++ [size])) as Hin.
  { apply List.Forall_forall. intros s Hs. rewrite Hsplit.
    apply in_app_or in Hs as [Hs | [<- | []]]; apply in_or_app; [now left | right; now left]. }
  start Hdir. fold (started w). rewrite Hsplit.
  apply bind_raised.
  etransitivity; [apply (for_each_save_aborts l1 l2 size (started w)) |].
  5:{ cbn [started files written stdout]. now rewrite <- app_assoc. }
  - apply started_icons.
  - exact Hin.
  - apply rasters_not_directories; [| exact Hl1].
    apply Forall_app in Hin. tauto.
  - rewrite started_lookup; [exact Hsize |].
    apply raster_path. rewrite List.Forall_forall in Hin. apply Hin, in_or_app. right. now left.
Qed.

Lemma run_aborts_at_vector (w : world) :
  files w !! "icons" = None \/ files w !! "icons" = Some Dir ->
  Forall (fun s => files w !! output_path s <> Some Dir) sizes ->
  files w !! svg_path = Some Dir ->
  generate_icons w =
    (Raised IsADirectoryError,
     mkWorld (saved sizes (<["icons" := Dir]> (files w))) (written w ++ map output_path sizes)
             (stdout w ++ banner :: map restored (map output_path sizes))).
Proof.
  intros Hdir Hpng Hsvg.
  start Hdir. fold (started w).
  erewrite (bind_returned (for_each sizes _)).
  2:{ apply for_each_save; [apply started_icons |].
      now apply rasters_ready. }
  apply bind_raised. unfold write_text.
  etransitivity; [apply (write_file_onto_directory _ "icons") |];
    cbn [started files written stdout].
  4:{ rewrite map_map, <- app_assoc. reflexivity. }
  - reflexivity.
  - rewrite lookup_saved_other; [apply lookup_insert_eq |].
    intros H. apply in_map_iff in H as (s & Hs & Hs').
    now destruct (raster_path s Hs') as (_ & ? & _).
  - rewrite lookup_saved_other.
    + rewrite lookup_insert_ne by (vm_compute; discriminate). exact Hsvg.
    + intros H. apply in_map_iff in H as (s & Hs & Hs').
      now destruct (raster_path s Hs') as (_ & _ & ?).
Qed.

Lemma raster_paths_distinct : List.NoDup (map output_path sizes).
Proof.
  unfold sizes. cbn [map].
  repeat (apply List.NoDup_cons; [cbn [In]; vm_compute; intuition discriminate |]).
  apply List.NoDup_nil.
Qed.

Lemma lookup_saved (l : list Z) : forall (m : gmap string entry) (size : Z),
  List.NoDup (map output_path l) -> In size l ->
  saved l m !! output_path size
    = Some (File (Encoded "PNG" (Icon.create_geometric_icon size))).
Proof.
  induction l as [| a l IH]; intros m size Hnd Hin; [contradiction |].
  cbn [map] in Hnd. apply List.NoDup_cons_iff in Hnd as [Ha Hnd].
  cbn [saved foldl].
  fold (saved l (<[output_path a := File (Encoded "PNG" (Icon.create_geometric_icon a))]> m)).
  destruct (in_dec Z.eq_dec size l) as [Hl | Hl].
  - now apply IH.
  - destruct Hin as [<- | Hin]; [| contradiction].
    rewrite lookup_saved_other by exact Ha. apply lookup_insert_eq.
Qed.

Lemma generated_again (m : gmap string entry) : generated (generated m) = generated m.
Proof.
  apply map_eq. intros p. unfold generated, saved, sizes. cbn [foldl].
  repeat rewrite lookup_insert. repeat case_decide; reflexivity.
Qed.

Lemma first_failure {A} (P : A -> Prop) (l : list A) :
  (forall x, {P x} + {~ P x}) ->
  Forall P l \/
  exists l1 x l2, l = (l1 ++ x :: l2)%list /\ Forall P l1 /\ ~ P x.
Proof.
  intros dec. induction l as [| a l IH]; [left; constructor |].
  destruct (dec a) as [Ha | Ha].
  - destruct IH as [IH | (l1 & x & l2 & -> & Hl1 & Hx)].
    + left. now constructor.
    + right. exists (a :: l1), x, l2. repeat split; [now constructor | exact Hx].
  - right. exists [], a, l. repeat split; [constructor | exact Ha].
Qed.

Lemma entry_cases (o : option entry) :
  (exists d, o = Some (File d)) \/ (o = None \/ o = Some Dir).
Proof. destruct o as [[| d] |]; eauto. Qed.

Lemma is_directory_dec (w : world) (p : string) :
  {files w !! p <> Some Dir} + {~ files w !! p <> Some Dir}.
Proof. destruct (files w !! p) as [[| d] |]; [right | left | left]; congruence. Qed.

(** A run ends in one of four ways, and the file system it starts from
    decides which; in each the world it leaves is known. *)
Lemma run_cases (w : world) :
  (exists d,
     files w !! "icons" = Some (File d) /\
     generate_icons w =
       (Raised NotADirectoryError, mkWorld (files w) (written w) (stdout w ++ [banner]))) \/
  ((files w !! "icons" = None \/ files w !! "icons" = Some Dir) /\
   exists l1 size l2,
     sizes = (l1 ++ size :: l2)%list /\
     Forall (fun s => files w !! output_path s <> Some Dir) l1 /\
     files w !! output_path size = Some Dir /\
     generate_icons w =
       (Raised IsADirectoryError,
        mkWorld (saved l1 (<["icons" := Dir]> (files w))) (written w ++ map output_path l1)
                (stdout w ++ banner :: map restored (map output_path l1)))) \/
  ((files w !! "icons" = None \/ files w !! "icons" = Some Dir) /\
   Forall (fun s => files w !! output_path s <> Some Dir) sizes /\
   files w !! svg_path = Some Dir /\
   generate_icons w =
     (Raised IsADirectoryError,
      mkWorld (saved sizes (<["icons" := Dir]> (files w))) (written w ++ map output_path sizes)
              (stdout w ++ banner :: map restored (map output_path sizes)))) \/
  ((files w !! "icons" = None \/ files w !! "icons" = Some Dir) /\
   Forall (fun p => files w !! p <> Some Dir) targets /\
   generate_icons w =
     (Returned tt,
      mkWorld (generated (files w)) (written w ++ targets)
              (stdout w ++ banner :: map restored (map output_path sizes) ++ summary))).
Proof.
  destruct (entry_cases (files w !! "icons")) as [[d Hd] | Hdir].
  { left. exists d. split; [exact Hd | now apply (run_under_file w d)]. }
  right.
  destruct (first_failure (fun s => files w !! output_path s <> Some Dir) sizes)
    as [Hpng | (l1 & s & l2 & Hsplit & Hl1 & Hs)].
  { intros s. apply is_directory_dec. }
  - right. destruct (is_directory_dec w svg_path) as [Hsvg | Hsvg].
    + right. split; [exact Hdir |].
      assert (Forall (fun p => files w !! p <> Some Dir) targets) as Ht.
      { unfold targets. apply Forall_app. split; [| now constructor].
        apply List.Forall_forall. intros p Hp. apply in_map_iff in Hp as (s & <- & Hs).
        rewrite List.Forall_forall in Hpng. now apply Hpng. }
      split; [exact Ht | now apply run_succeeds].
    + left. split; [exact Hdir |]. split; [exact Hpng |].
      assert (files w !! svg_path = Some Dir) as Hsvg'.
      { destruct (files w !! svg_path) as [[| d] |]; [reflexivity | |];
          exfalso; apply Hsvg; discriminate. }
      split; [exact Hsvg' | now apply run_aborts_at_vector].
  - left. split; [exact Hdir |]. exists l1, s, l2.
    assert (files w !! output_path s = Some Dir) as Hs'.
    { destruct (files w !! output_path s) as [[| d] |]; [reflexivity | |];
        exfalso; apply Hs; discriminate. }
    repeat split; try assumption. now apply (run_aborts_at_raster w l1 l2 s).
Qed.

(** How each of the four ends shows in the start. *)
Lemma run_outcome (w : world) :
  ((exists d, files w !! "icons" = Some (File d)) /\
   fst (generate_icons w) = Raised NotADirectoryError) \/
  ((files w !! "icons" = None \/ files w !! "icons" = Some Dir) /\
   Exists (fun p => files w !! p = Some Dir) targets /\
   fst (generate_icons w) = Raised IsADirectoryError) \/
  ((files w !! "icons" = None \/ files w !! "icons" = Some Dir) /\
   Forall (fun p => files w !! p <> Some Dir) targets /\
   fst (generate_icons w) = Returned tt).
Proof.
  destruct (run_cases w)
    as [(d & Hd & ->) | [(Hdir & l1 & s & l2 & Hsplit & _ & Hs & ->) |
        [(Hdir & _ & Hsvg & ->) | (Hdir & Ht & ->)]]].
  - left. split; [now exists d | reflexivity].
  - right. left. split; [exact Hdir |]. split; [| reflexivity].
    apply List.Exists_exists. exists (output_path s). split; [| exact Hs].
    unfold targets. apply in_or_app. left. apply in_map. rewrite Hsplit.
    apply in_or_app. right. now left.
  - right. left. split; [exact Hdir |]. split; [| reflexivity].
    apply List.Exists_exists. exists svg_path. split; [| exact Hsvg].
    unfold targets. apply in_or_app. right. now left.
  - right. right. now repeat split.
Qed.

Lemma returned_ready (w : world) :
  fst (generate_icons w) = Returned tt ->
  (files w !! "icons" = None \/ files w !! "icons" = Some Dir) /\
  Forall (fun p => files w !! p <> Some Dir) targets.
Proof.
  destruct (run_outcome w) as [(_ & ->) | [(_ & _ & ->) | (Hdir & Hf & _)]];
    [discriminate | discriminate | now intros _].
Qed.

Lemma saved_keeps (l : list Z) (m : gmap string entry) (p : string) :
  (is_Some (m !! p) -> is_Some (saved l m !! p)) /\
  (~ In p (map output_path l) -> saved l m !! p = m !! p).
Proof.
  split.
  - intros H. destruct (in_dec string_dec p (map output_path l)) as [Hin | Hout].
    + destruct (lookup_saved_in l m p Hin) as [d ->]. now eexists.
    + now rewrite lookup_saved_other.
  - apply lookup_saved_other.
Qed.

Lemma in_targets_prefix (l1 l2 : list Z) (size : Z) (p : string) :
  sizes = (l1 ++ size :: l2)%list -> In p (map output_path l1) -> In p targets.
Proof.
  intros Hsplit Hp. unfold targets. apply in_or_app. left. rewrite Hsplit, map_app.
  apply in_or_app. now left.
Qed.

End Driver_runs.

Module Driver_behaviour.
Import Driver Driver_facts Report Driver_runs.
Local Open Scope string_scope.

(** X1. When [icons] exists but is a regular file, [os.path.exists] answers
    yes, no directory is made, and the first [save] raises
    [NotADirectoryError]: nothing is written, the file system is as it was and
    only the banner has been printed. *)
Theorem icons_is_a_file (w : world) (d0 : data) :
  files w !! "icons" = Some (File d0) ->
  exists w',
    generate_icons w = (Raised NotADirectoryError, w') /\
    files w' = files w /\
    written w' = written w /\
    stdout w' = (stdout w ++ [banner])%list.
Proof.
  intros H. eexists. split; [now apply (run_under_file w d0) |]. repeat split.
Qed.

(** X1 where [icons] is a text file. *)
Lemma icons_is_a_file_witness :
  exists w',
    generate_icons icons_file_world = (Raised NotADirectoryError, w') /\
    files w' = files icons_file_world.
Proof.
  assert (files icons_file_world !! "icons" = Some (File (Text "not a directory"))) as H
    by reflexivity.
  destruct (icons_is_a_file icons_file_world _ H) as (w' & Hrun & Hfiles & _).
  exists w'. split; [exact Hrun | exact Hfiles].
Defined.

(** X2. A target that is a directory stops the run with [IsADirectoryError]
    at that target: the rasters before it have been written and reported,
    each holding its image; nothing is rolled back, and nothing else in the
    file system has changed, so the later rasters and the vector document
    are not written.  The same holds when the vector path is the
    directory: all six rasters are then in place. *)
Theorem aborts_at_first_directory (w : world) :
  files w !! "icons" = None \/ files w !! "icons" = Some Dir ->
  (forall l1 size l2,
     sizes = (l1 ++ size :: l2)%list ->
     Forall (fun s => files w !! output_path s <> Some Dir) l1 ->
     files w !! output_path size = Some Dir ->
     exists w',
       generate_icons w = (Raised IsADirectoryError, w') /\
       written w' = (written w ++ map output_path l1)%list /\
       stdout w' = (stdout w ++ banner :: map restored (map output_path l1))%list /\
       Forall (fun s => files w' !! output_path s
                        = Some (File (Encoded "PNG" (Icon.create_geometric_icon s)))) l1 /\
       forall p, p <> "icons" -> ~ In p (map output_path l1) -> files w' !! p = files w !! p) /\
  (Forall (fun s => files w !! output_path s <> Some Dir) sizes ->
   files w !! svg_path = Some Dir ->
   exists w',
     generate_icons w = (Raised IsADirectoryError, w') /\
     written w' = (written w ++ map output_path sizes)%list /\
     stdout w' = (stdout w ++ banner :: map restored (map output_path sizes))%list /\
     Forall (fun s => files w' !! output_path s
                      = Some (File (Encoded "PNG" (Icon.create_geometric_icon s)))) sizes /\
     files w' !! svg_path = Some Dir).
Proof.
  intros Hdir. split.
  - intros l1 size l2 Hsplit Hl1 Hsize.
    eexists. split; [now apply (run_aborts_at_raster w l1 l2 size) |].
    cbn [files written stdout]. repeat split.
    + apply List.Forall_forall. intros s Hs. apply lookup_saved; [| exact Hs].
      pose proof raster_paths_distinct as Hnd. rewrite Hsplit, map_app in Hnd.
      now apply List.NoDup_app_remove_r in Hnd.
    + intros p Hp Hnot. rewrite lookup_saved_other by exact Hnot.
      now apply lookup_insert_ne.
  - intros Hpng Hsvg.
    eexists. split; [now apply run_aborts_at_vector |].
    cbn [files written stdout]. repeat split.
    + apply List.Forall_forall. intros s Hs.
      apply lookup_saved; [apply raster_paths_distinct | exact Hs].
    + rewrite lookup_saved_other.
      * rewrite lookup_insert_ne by (vm_compute; discriminate). exact Hsvg.
      * intros H. apply in_map_iff in H as (s & Hs & Hs').
        now destruct (raster_path s Hs') as (_ & _ & ?).
Qed.

(** X2 where [icons/38.png] is a directory: three rasters are written. *)
Lemma aborts_at_first_directory_witness :
  exists w',
    generate_icons blocked_world = (Raised IsADirectoryError, w') /\
    written w' = ["icons/16.png"; "icons/18.png"; "icons/19.png"].
Proof.
  assert (files blocked_world !! "icons" = None \/ files blocked_world !! "icons" = Some Dir)
    as Hdir by (right; reflexivity).
  destruct (aborts_at_first_directory blocked_world Hdir) as [Hraster _].
  destruct (Hraster [16; 18; 19]%Z 38%Z [48; 128]%Z) as (w' & Hrun & Hwritten & _).
  - reflexivity.
  - repeat constructor; discriminate.
  - reflexivity.
  - exists w'. split; [exact Hrun | exact Hwritten].
Defined.

(** X3. A run can be repeated: after a run that succeeded a second run
    succeeds too, writes the same seven files again in the same order, and
    leaves the file system exactly as the first run left it. *)
Theorem rerun_changes_nothing (w : world) :
  files w !! "icons" = None \/ files w !! "icons" = Some Dir ->
  Forall (fun p => files w !! p <> Some Dir) targets ->
  exists w1 w2,
    generate_icons w = (Returned tt, w1) /\
    generate_icons w1 = (Returned tt, w2) /\
    files w2 = files w1 /\
    written w2 = (written w1 ++ targets)%list.
Proof.
  intros Hdir Htargets.
  pose proof (run_succeeds w Hdir Htargets) as H1.
  set (w1 := mkWorld (generated (files w)) (written w ++ targets)
                     (stdout w ++ banner :: map restored (map output_path sizes) ++ summary))
    in H1.
  assert (files w1 !! "icons" = None \/ files w1 !! "icons" = Some Dir) as Hdir1.
  { right. cbn [w1 files]. unfold generated.
    rewrite lookup_insert_ne by (vm_compute; discriminate).
    rewrite lookup_saved_other; [apply lookup_insert_eq |].
    intros H. apply in_map_iff in H as (s & Hs & Hs').
    now destruct (raster_path s Hs') as (_ & ? & _). }
  assert (Forall (fun p => files w1 !! p <> Some Dir) targets) as Htargets1.
  { apply List.Forall_forall. intros p Hp. cbn [w1 files]. unfold generated, targets in *.
    apply in_app_or in Hp as [Hp | [<- | []]].
    - rewrite lookup_insert_ne.
      + destruct (lookup_saved_in sizes (<["icons" := Dir]> (files w)) p Hp) as [d ->].
        discriminate.
      + intros <-. apply in_map_iff in Hp as (s & Hs & Hs').
        now destruct (raster_path s Hs') as (_ & _ & ?).
    - rewrite lookup_insert_eq. discriminate. }
  pose proof (run_succeeds w1 Hdir1 Htargets1) as H2.
  eexists _, _. split; [exact H1 |]. split; [exact H2 |].
  cbn [files written]. split; [apply generated_again | reflexivity].
Qed.

(** X3 from an empty file system. *)
Lemma rerun_changes_nothing_witness :
  exists w1 w2,
    generate_icons empty_world = (Returned tt, w1) /\
    generate_icons w1 = (Returned tt, w2) /\
    files w2 = files w1.
Proof.
  assert (files empty_world !! "icons" = None \/ files empty_world !! "icons" = Some Dir) as H1
    by (left; reflexivity).
  assert (Forall (fun p => files empty_world !! p <> Some Dir) targets) as H2
    by (apply List.Forall_forall; intros p _; discriminate).
  destruct (rerun_changes_nothing empty_world H1 H2) as (w1 & w2 & R1 & R2 & Hf & _).
  exists w1, w2. split; [exact R1 |]. split; [exact R2 | exact Hf].
Defined.

(** X4. A run that succeeds calls [print] fourteen times: with the banner,
    with [[OK] Restored <path>] for each raster in the order they are written,
    with the message for the vector document, and with the six strings of the
    closing summary.  Two of those six begin with a newline, so sixteen lines
    reach the standard output, two of them empty.  Every string
    [[OK] Restored <path>] the run prints names a path it has written. *)
Theorem progress_report (w : world) :
  files w !! "icons" = None \/ files w !! "icons" = Some Dir ->
  Forall (fun p => files w !! p <> Some Dir) targets ->
  exists w',
    generate_icons w = (Returned tt, w') /\
    stdout w' =
      (stdout w ++
       ["Restoring SecureShare icons with transparent background...";
        "[OK] Restored icons/16.png"; "[OK] Restored icons/18.png";
        "[OK] Restored icons/19.png"; "[OK] Restored icons/38.png";
        "[OK] Restored icons/48.png"; "[OK] Restored icons/128.png";
        "[OK] Created transparent SVG: icons/secure-share-icon-transparent.svg";
        String "010" "All icons restored successfully with transparent backgrounds!";
        "The icons now have:";
        "- Transparent backgrounds (will work on any Chrome theme)";
        "- Your original geometric/cube design";
        "- Proper sizing for each resolution";
        String "010" "Reload the extension in Chrome to see the updated icons."])%list /\
    printed_lines (stdout w') =
      (printed_lines (stdout w) ++
       ["Restoring SecureShare icons with transparent background...";
        "[OK] Restored icons/16.png"; "[OK] Restored icons/18.png";
        "[OK] Restored icons/19.png"; "[OK] Restored icons/38.png";
        "[OK] Restored icons/48.png"; "[OK] Restored icons/128.png";
        "[OK] Created transparent SVG: icons/secure-share-icon-transparent.svg";
        EmptyString;
        "All icons restored successfully with transparent backgrounds!";
        "The icons now have:";
        "- Transparent backgrounds (will work on any Chrome theme)";
        "- Your original geometric/cube design";
        "- Proper sizing for each resolution";
        EmptyString;
        "Reload the extension in Chrome to see the updated icons."])%list /\
    (forall p, In (restored p) (stdout w') -> ~ In (restored p) (stdout w) -> In p (written w')).
Proof.
  intros Hdir Htargets.
  eexists. split; [now apply run_succeeds |]. cbn [stdout written]. split; [reflexivity |].
  split; [unfold printed_lines; rewrite flat_map_app; reflexivity |].
  intros p Hp Hnot. apply in_or_app. right.
  apply in_app_or in Hp as [Hp | Hp]; [contradiction |].
  unfold targets. apply in_or_app. left.
  destruct Hp as [Hp | Hp]; [vm_compute in Hp; discriminate |].
  apply in_app_or in Hp as [Hp | Hp].
  - apply in_map_iff in Hp as (q & Hq & Hq').
    unfold restored in Hq. apply (inj (String.app _)) in Hq. now subst.
  - exfalso. unfold summary, restored in Hp. cbn [In] in Hp.
    repeat (destruct Hp as [Hp | Hp]; [vm_compute in Hp; discriminate |]). exact Hp.
Qed.

(** X4 from an empty file system: fourteen strings, sixteen lines. *)
Lemma progress_report_witness :
  exists w',
    generate_icons empty_world = (Returned tt, w') /\
    length (stdout w') = 14%nat /\
    length (printed_lines (stdout w')) = 16%nat.
Proof.
  assert (files empty_world !! "icons" = None \/ files empty_world !! "icons" = Some Dir) as H1
    by (left; reflexivity).
  assert (Forall (fun p => files empty_world !! p <> Some Dir) targets) as H2
    by (apply List.Forall_forall; intros p _; discriminate).
  destruct (progress_report empty_world H1 H2) as (w' & Hrun & Hout & Hlines & _).
  exists w'. split; [exact Hrun |]. rewrite Hlines, Hout. split; reflexivity.
Defined.

(** X5. On the file system modelled, of directories and regular files
    without links, where no operation fails for lack of permission or space
    and nothing else changes the files, the outcome of a run is decided by
    the entries it starts from.  It returns exactly when [icons] is absent or
    a directory and no target is a directory; it raises [NotADirectoryError]
    exactly when [icons] is a file; it raises [IsADirectoryError] exactly when
    [icons] is absent or a directory and some target is a directory.  On such
    a file system it never raises [FileExistsError] ([makedirs] runs only
    after [exists] has answered no) nor [FileNotFoundError] (the directory is
    seen to before any file is opened). *)
Theorem outcomes (w : world) :
  let ready := files w !! "icons" = None \/ files w !! "icons" = Some Dir in
  (fst (generate_icons w) = Returned tt <->
     ready /\ Forall (fun p => files w !! p <> Some Dir) targets) /\
  (fst (generate_icons w) = Raised NotADirectoryError <->
     exists d, files w !! "icons" = Some (File d)) /\
  (fst (generate_icons w) = Raised IsADirectoryError <->
     ready /\ Exists (fun p => files w !! p = Some Dir) targets) /\
  fst (generate_icons w) <> Raised FileExistsError /\
  fst (generate_icons w) <> Raised FileNotFoundError.
Proof.
  intros ready. unfold ready.
  assert (forall d, files w !! "icons" = Some (File d) ->
                    ~ (files w !! "icons" = None \/ files w !! "icons" = Some Dir)) as Hexcl.
  { intros d Hd [H | H]; rewrite Hd in H; discriminate. }
  assert (Exists (fun p => files w !! p = Some Dir) targets ->
          ~ Forall (fun p => files w !! p <> Some Dir) targets) as Hexcl'.
  { intros He Hf. apply List.Exists_exists in He as (p & Hp & Hd).
    rewrite List.Forall_forall in Hf. now apply (Hf p Hp). }
  destruct (run_outcome w) as [([d Hd] & ->) | [(Hdir & He & ->) | (Hdir & Hf & ->)]].
  - specialize (Hexcl d Hd).
    repeat split; try discriminate; try tauto; eauto.
  - repeat split; try discriminate; try tauto.
    intros [d Hd]. exfalso. now apply (Hexcl d Hd).
  - repeat split; try discriminate; try tauto.
    intros [d Hd]. exfalso. now apply (Hexcl d Hd).
Qed.

(** X6. After a run that succeeded, the file named after each size holds a
    PNG of an RGBA image that is exactly that many pixels wide and high, with
    a fully transparent initial colour. *)
Theorem raster_files (w w' : world) :
  generate_icons w = (Returned tt, w') ->
  Forall (fun size =>
            exists img,
              files w' !! ("icons/" +:+ pretty size +:+ ".png")
                = Some (File (Encoded "PNG" img)) /\
              Draw.mode img = "RGBA" /\
              Draw.size img = (size, size) /\
              Draw.background img = (0, 0, 0, 0))
         [16; 18; 19; 38; 48; 128]%Z.
Proof.
  intros Hrun.
  assert (fst (generate_icons w) = Returned tt) as Hfst by now rewrite Hrun.
  apply returned_ready in Hfst as [Hdir Ht].
  rewrite (run_succeeds w Hdir Ht) in Hrun. injection Hrun as <-.
  apply List.Forall_forall. intros size Hs.
  exists (Icon.create_geometric_icon size). cbn [files].
  split; [| apply Icon_facts.canvas].
  change ("icons/" +:+ pretty size +:+ ".png") with (output_path size).
  unfold generated. rewrite lookup_insert_ne.
  - apply lookup_saved; [apply raster_paths_distinct | exact Hs].
  - intros H. symmetry in H. now destruct (raster_path size Hs) as (_ & _ & ?).
Qed.

(** X6 from an empty file system. *)
Lemma raster_files_witness :
  exists w',
    generate_icons empty_world = (Returned tt, w') /\
    exists img,
      files w' !! "icons/128.png" = Some (File (Encoded "PNG" img)) /\
      Draw.size img = (128, 128).
Proof.
  assert (files empty_world !! "icons" = None \/ files empty_world !! "icons" = Some Dir) as H1
    by (left; reflexivity).
  assert (Forall (fun p => files empty_world !! p <> Some Dir) targets) as H2
    by (apply List.Forall_forall; intros p _; discriminate).
  pose proof (run_succeeds empty_world H1 H2) as Hrun.
  eexists. split; [exact Hrun |].
  pose proof (raster_files _ _ Hrun) as Hall.
  do 5 apply List.Forall_inv_tail in Hall. apply List.Forall_inv in Hall.
  destruct Hall as (img & Hfile & _ & Hsize & _).
  exists img. split; [exact Hfile | exact Hsize].
Defined.

(** X7. However a run ends, the files it has written are the first few
    of its seven targets, in the order of the script.  On the file
    system modelled, of directories and regular files without links, each
    under its own path, it therefore touches nothing but [icons] and those
    targets; it removes nothing; and it never replaces a directory. *)
Theorem touches_only_targets (w : world) :
  let w' := snd (generate_icons w) in
  (exists n, written w' = (written w ++ firstn n targets)%list) /\
  (forall p, p <> "icons" -> ~ In p targets -> files w' !! p = files w !! p) /\
  (forall p, is_Some (files w !! p) -> is_Some (files w' !! p)) /\
  (forall p, files w !! p = Some Dir -> files w' !! p = Some Dir).
Proof.
  split.
  { destruct (run_cases w)
      as [(d & Hd & ->) | [(Hdir & l1 & s & l2 & Hsplit & Hl1 & Hs & ->) |
          [(Hdir & Hpng & Hsvg & ->) | (Hdir & Ht & ->)]]];
      cbn [snd written].
    - exists 0%nat. now rewrite app_nil_r.
    - exists (length (map output_path l1)). f_equal. unfold targets.
      rewrite Hsplit, map_app, <- app_assoc. symmetry. apply take_app_length.
    - exists 6%nat. reflexivity.
    - exists 7%nat. reflexivity. }
  assert (forall m : gmap string entry, forall p,
            is_Some (m !! p) -> is_Some (<["icons" := Dir]> m !! p)) as Hins.
  { intros m p H. destruct (decide ("icons" = p)) as [<- | Hne].
    - rewrite lookup_insert_eq. now eexists.
    - now rewrite lookup_insert_ne. }
  assert (forall m : gmap string entry, forall p,
            m !! "icons" = None \/ m !! "icons" = Some Dir ->
            m !! p = Some Dir -> <["icons" := Dir]> m !! p = Some Dir) as Hdirs.
  { intros m p _ H. destruct (decide ("icons" = p)) as [<- | Hne].
    - apply lookup_insert_eq.
    - now rewrite lookup_insert_ne. }
  destruct (run_cases w)
    as [(d & Hd & ->) | [(Hdir & l1 & s & l2 & Hsplit & Hl1 & Hs & ->) |
        [(Hdir & Hpng & Hsvg & ->) | (Hdir & Ht & ->)]]];
    cbn [snd files]; repeat split; try tauto.
  - intros p Hp Hnot. rewrite lookup_saved_other.
    + now apply lookup_insert_ne.
    + intros Hin. apply Hnot. now apply (in_targets_prefix l1 l2 s).
  - intros p H. now apply saved_keeps, Hins.
  - intros p H. rewrite lookup_saved_other; [now apply Hdirs |].
    intros Hin. apply in_map_iff in Hin as (q & <- & Hq).
    rewrite List.Forall_forall in Hl1. now apply (Hl1 q Hq).
  - intros p Hp Hnot. rewrite lookup_saved_other.
    + now apply lookup_insert_ne.
    + intros Hin. apply Hnot. unfold targets. apply in_or_app. now left.
  - intros p H. now apply saved_keeps, Hins.
  - intros p H. rewrite lookup_saved_other; [now apply Hdirs |].
    intros Hin. apply in_map_iff in Hin as (q & <- & Hq).
    rewrite List.Forall_forall in Hpng. now apply (Hpng q Hq).
  - intros p Hp Hnot. unfold generated. rewrite lookup_insert_ne.
    + rewrite lookup_saved_other; [now apply lookup_insert_ne |].
      intros Hin. apply Hnot. unfold targets. apply in_or_app. now left.
    + intros <-. apply Hnot. unfold targets. apply in_or_app. right. now left.
  - intros p H. unfold generated. destruct (decide (svg_path = p)) as [<- | Hne].
    + rewrite lookup_insert_eq. now eexists.
    + rewrite lookup_insert_ne by exact Hne. now apply saved_keeps, Hins.
  - intros p H. unfold generated.
    assert (In p targets -> False) as Hnot.
    { intros Hin. rewrite List.Forall_forall in Ht. now apply (Ht p Hin). }
    rewrite lookup_insert_ne.
    + rewrite lookup_saved_other; [now apply Hdirs |].
      intros Hin. apply Hnot. unfold targets. apply in_or_app. now left.
    + intros <-. apply Hnot. unfold targets. apply in_or_app. right. now left.
Qed.

End Driver_behaviour.

(* ===================================================================== *)
(** * Further properties of [create_geometric_icon] *)
(* ===================================================================== *)

(** ** Where the calls lie on the canvas *)

Module Extent_facts.
Import Py Py_facts Icon Icon_facts Extent.

Lemma leb_Z_to_Z (n : num) (a x : Z) :
  to_Z n = Some a -> (leb_Z n x = true <-> a <= x).
Proof.
  destruct n as [z | f]; cbn [to_Z leb_Z].
  - intros [= ->]. apply Z.leb_le.
  - unfold F64.to_Z, F64.leb_Z. destruct (0 <=? F64.Fexp f) eqn:E.
    + intros [= <-]. apply Z.leb_le.
    + destruct (F64.Fnum f mod 2 ^ (- F64.Fexp f) =? 0) eqn:E'; [| discriminate].
      intros [= <-]. rewrite Z.leb_le.
      assert (0 < 2 ^ (- F64.Fexp f)) as HP by (apply Z.pow_pos_nonneg; lia).
      apply Z.eqb_eq in E'.
      pose proof (Z.div_mod (F64.Fnum f) (2 ^ (- F64.Fexp f)) ltac:(lia)) as Hdm.
      rewrite E', Z.add_0_r in Hdm.
      set (P := 2 ^ (- F64.Fexp f)) in *. set (q := F64.Fnum f / P) in *. nia.
Qed.

Lemma Z_leb_to_Z (n : num) (a x : Z) :
  to_Z n = Some a -> (Z_leb x n = true <-> x <= a).
Proof.
  destruct n as [z | f]; cbn [to_Z Z_leb].
  - intros [= ->]. apply Z.leb_le.
  - unfold F64.to_Z, F64.Z_leb. destruct (0 <=? F64.Fexp f) eqn:E.
    + intros [= <-]. apply Z.leb_le.
    + destruct (F64.Fnum f mod 2 ^ (- F64.Fexp f) =? 0) eqn:E'; [| discriminate].
      intros [= <-]. rewrite Z.leb_le.
      assert (0 < 2 ^ (- F64.Fexp f)) as HP by (apply Z.pow_pos_nonneg; lia).
      apply Z.eqb_eq in E'.
      pose proof (Z.div_mod (F64.Fnum f) (2 ^ (- F64.Fexp f)) ltac:(lia)) as Hdm.
      rewrite E', Z.add_0_r in Hdm.
      set (P := 2 ^ (- F64.Fexp f)) in *. set (q := F64.Fnum f / P) in *. nia.
Qed.

(** A call whose control points lie in a square paints nothing outside it,
    whatever the rasteriser, as long as it keeps to bounding boxes. *)
Lemma bbox_within (lo hi : Z) (p : Draw.primitive) (x y : Z) :
  within lo hi p = true -> Draw.bbox p x y = true ->
  lo <= x <= hi /\ lo <= y <= hi.
Proof.
  unfold within, Draw.bbox. intros Hw Hb.
  rewrite forallb_forall in Hw.
  apply andb_prop in Hb as [Hb Hy2]. apply andb_prop in Hb as [Hb Hy1].
  apply andb_prop in Hb as [Hx1 Hx2].
  apply existsb_exists in Hx1 as (q1 & Hq1 & Hx1).
  apply existsb_exists in Hx2 as (q2 & Hq2 & Hx2).
  apply existsb_exists in Hy1 as (q3 & Hq3 & Hy1).
  apply existsb_exists in Hy2 as (q4 & Hq4 & Hy2).
  pose proof (Hw q1 Hq1) as H1. pose proof (Hw q2 Hq2) as H2.
  pose proof (Hw q3 Hq3) as H3. pose proof (Hw q4 Hq4) as H4.
  unfold Draw.zpoint in H1, H2, H3, H4.
  destruct (to_Z (fst q1)) as [a1 |] eqn:Ea1; [| discriminate].
  destruct (to_Z (snd q1)) as [b1 |] eqn:Eb1; [| discriminate].
  destruct (to_Z (fst q2)) as [a2 |] eqn:Ea2; [| discriminate].
  destruct (to_Z (snd q2)) as [b2 |] eqn:Eb2; [| discriminate].
  destruct (to_Z (fst q3)) as [a3 |] eqn:Ea3; [| discriminate].
  destruct (to_Z (snd q3)) as [b3 |] eqn:Eb3; [| discriminate].
  destruct (to_Z (fst q4)) as [a4 |] eqn:Ea4; [| discriminate].
  destruct (to_Z (snd q4)) as [b4 |] eqn:Eb4; [| discriminate].
  apply (leb_Z_to_Z _ _ _ Ea1) in Hx1. apply (Z_leb_to_Z _ _ _ Ea2) in Hx2.
  apply (leb_Z_to_Z _ _ _ Eb3) in Hy1. apply (Z_leb_to_Z _ _ _ Eb4) in Hy2.
  lia.
Qed.

Ltac extent :=
  cbn [forallb within ordered_box Draw.control_points Draw.points map app];
  rewrite ?Draw_facts.zpoint_int_int, ?Draw_facts.zpoint_int_Fz, ?Draw_facts.zpoint_Fz_Fz;
  repeat (apply andb_true_intro; split); try reflexivity; apply Z.leb_le.

(** Where the calls of an icon lie on its canvas. *)
Lemma simple_extent (size : Z) :
  1 <= size <= 19 ->
  forallb (within 0 (size - 1)) (Draw.drawn (create_geometric_icon size)) = true /\
  (forallb (within 1 (size - 2)) (Draw.drawn (create_geometric_icon size)) = true
   <-> size = 5 \/ 7 <= size) /\
  forallb ordered_box (Draw.drawn (create_geometric_icon size)) = true.
Proof.
  intros Hs. each_size size;
    (split; [vm_compute; reflexivity |]; split; [| vm_compute; reflexivity]);
    first [ split; [intros _; lia | intros _; vm_compute; reflexivity]
          | split; [vm_compute; discriminate | lia] ].
Qed.

Lemma medium_extent (size : Z) :
  20 <= size <= 48 ->
  forallb (within 1 (size - 2)) (Draw.drawn (create_geometric_icon size)) = true /\
  forallb ordered_box (Draw.drawn (create_geometric_icon size)) = true.
Proof.
  intros Hs. destruct (medium_drawn size Hs) as [_ ->].
  split; extent; bounded.
Qed.

Lemma detailed_extent (size : Z) :
  48 < size < 2 ^ 50 ->
  forallb (within 1 (size - 2)) (Draw.drawn (create_geometric_icon size)) = true /\
  forallb ordered_box (Draw.drawn (create_geometric_icon size)) = true.
Proof.
  intros Hs. rewrite (detailed_drawn size Hs).
  destruct (128 <=? size) eqn:E; split; extent; bounded.
Qed.

Lemma within_wider (lo hi lo' hi' : Z) (p : Draw.primitive) :
  lo' <= lo -> hi <= hi' -> within lo hi p = true -> within lo' hi' p = true.
Proof.
  intros Hlo Hhi. unfold within. rewrite !forallb_forall.
  intros H q Hq. specialize (H q Hq).
  destruct (Draw.zpoint q) as [[x y] |]; [| discriminate]. lia.
Qed.

Lemma all_within_wider (lo hi lo' hi' : Z) (l : list Draw.primitive) :
  lo' <= lo -> hi <= hi' ->
  forallb (within lo hi) l = true -> forallb (within lo' hi') l = true.
Proof.
  intros Hlo Hhi. rewrite !forallb_forall. intros H p Hp.
  now apply (within_wider lo hi), H.
Qed.

End Extent_facts.

Module Icon_behaviour.
Import Py Icon Icon_facts Extent Extent_facts.

(** X8. For every size from 1 (and below 2^50) every point handed to a
    drawing call lies on the canvas, so no shape is clipped.  The points
    keep one pixel away from all four borders exactly when the size is 5 or
    at least 7; at the sizes 1, 2, 3, 4 and 6 the square of the simple tier
    reaches a border. *)
Theorem stays_on_canvas (size : Z) :
  1 <= size < 2 ^ 50 ->
  forallb (within 0 (size - 1)) (Draw.drawn (create_geometric_icon size)) = true /\
  (forallb (within 1 (size - 2)) (Draw.drawn (create_geometric_icon size)) = true
   <-> size = 5 \/ 7 <= size).
Proof.
  intros Hs.
  destruct (Z_le_gt_dec size 19) as [H19 | H19];
    [| destruct (Z_le_gt_dec size 48) as [H48 | H48]].
  - destruct (simple_extent size ltac:(lia)) as (H0 & H1 & _). now split.
  - destruct (medium_extent size ltac:(lia)) as [H1 _].
    split; [apply (all_within_wider 1 (size - 2)); [lia | lia | exact H1] |].
    split; [intros _; lia | intros _; exact H1].
  - destruct (detailed_extent size ltac:(lia)) as [H1 _].
    split; [apply (all_within_wider 1 (size - 2)); [lia | lia | exact H1] |].
    split; [intros _; lia | intros _; exact H1].
Qed.

(** X8 at size 128. *)
Lemma stays_on_canvas_witness :
  1 <= 128 < 2 ^ 50 /\
  forallb (within 1 126) (Draw.drawn (create_geometric_icon 128)) = true.
Proof.
  assert (1 <= 128 < 2 ^ 50) as H by (vm_compute; split; [discriminate | reflexivity]).
  split; [exact H |].
  destruct (stays_on_canvas 128 H) as [_ Hb]. apply Hb. right. lia.
Defined.

Section Border.
Variable covers : Draw.primitive -> Z -> Z -> bool.
Hypothesis covers_confined : Draw.confined covers.

(** X9. For size 5 and for every size from 7 (below 2^50) the outermost
  row and column of pixels on each side of the canvas stay fully
  transparent, whatever is drawn: the icon never touches the border. *)
Theorem transparent_border (size : Z) :
size = 5 \/ 7 <= size -> size < 2 ^ 50 ->
forall x y,
  Draw.inside (create_geometric_icon size) x y = true ->
  x = 0 \/ x = size - 1 \/ y = 0 \/ y = size - 1 ->
  Draw.getpixel covers (create_geometric_icon size) x y = Some (0, 0, 0, 0).
Proof.
intros Hsize Hb x y Hin Hborder.
assert (forallb (within 1 (size - 2)) (Draw.drawn (create_geometric_icon size)) = true) as Hw.
{ assert (1 <= size < 2 ^ 50) as Hs by lia.
  destruct (Z_le_gt_dec size 19) as [H19 | H19];
    [| destruct (Z_le_gt_dec size 48) as [H48 | H48]].
  - destruct (simple_extent size ltac:(lia)) as (_ & H1 & _). now apply H1.
  - now destruct (medium_extent size ltac:(lia)).
  - now destruct (detailed_extent size ltac:(lia)). }
rewrite (Draw_facts.getpixel_untouched covers _ x y Hin).
- now destruct (canvas size) as (_ & _ & ->).
- apply (Draw_facts.outside_boxes_untouched covers covers_confined).
  rewrite forallb_forall in Hw. apply forallb_forall. intros p Hp.
  destruct (Draw.bbox p x y) eqn:E; [| reflexivity].
  apply (bbox_within 1 (size - 2)) in E; [lia | now apply Hw].
Qed.

End Border.

(** X9 at size 16 with the rasteriser that paints whole bounding boxes. *)
Lemma transparent_border_witness :
  Draw.getpixel Draw.bbox (create_geometric_icon 16) 7 0 = Some (0, 0, 0, 0).
Proof.
  assert (Draw.confined Draw.bbox) as Hc by (intros p x y H; exact H).
  apply (transparent_border Draw.bbox Hc 16).
  - right. lia.
  - vm_compute. reflexivity.
  - vm_compute. reflexivity.
  - right. right. left. reflexivity.
Defined.

(** X10. For every size from 1 (and below 2^50) every box handed to
    [draw.rectangle] and [draw.arc] has its corners in order, left before
    right and top before bottom, down to the one-pixel square of size 1. *)
Theorem boxes_ordered (size : Z) :
  1 <= size < 2 ^ 50 ->
  forallb ordered_box (Draw.drawn (create_geometric_icon size)) = true.
Proof.
  intros Hs.
  destruct (Z_le_gt_dec size 19) as [H19 | H19];
    [| destruct (Z_le_gt_dec size 48) as [H48 | H48]].
  - now destruct (simple_extent size ltac:(lia)) as (_ & _ & H).
  - now destruct (medium_extent size ltac:(lia)).
  - now destruct (detailed_extent size ltac:(lia)).
Qed.

(** X10 at size 1. *)
Lemma boxes_ordered_witness :
  1 <= 1 < 2 ^ 50 /\
  forallb ordered_box (Draw.drawn (create_geometric_icon 1)) = true.
Proof.
  assert (1 <= 1 < 2 ^ 50) as H by (vm_compute; split; [discriminate | reflexivity]).
  split; [exact H | exact (boxes_ordered 1 H)].
Defined.

Lemma fold_colour (covers : Draw.primitive -> Z -> Z -> bool)
    (l : list Draw.primitive) (x y : Z) (c : Draw.color) :
  fold_left (fun c p => if covers p x y then Draw.fill_of p else c) l c = c \/
  In (fold_left (fun c p => if covers p x y then Draw.fill_of p else c) l c)
     (map Draw.fill_of l).
Proof.
  revert c. induction l as [| p l IH]; intros c; cbn [fold_left map]; [now left |].
  destruct (IH (if covers p x y then Draw.fill_of p else c)) as [-> | H].
  - destruct (covers p x y); [right; now left | now left].
  - right. now right.
Qed.

(** X11. Whatever the rasteriser paints, a pixel of an icon holds either the
    transparent background or one of the fill colours of its tier, as
    given: the primary red alone below size 16, with white of alpha 200 from
    16 to 19; red and the darker red from 20 to 48; red, the lighter, the
    darker and the darkest red above 48, with white of alpha 200 from 128. *)
Theorem pixel_palette (covers : Draw.primitive -> Z -> Z -> bool) (size x y : Z)
    (c : Draw.color) :
  Draw.getpixel covers (create_geometric_icon size) x y = Some c ->
  c = (0, 0, 0, 0) \/
  (size <= 19 /\ (c = red_color \/ 16 <= size /\ c = white_200)) \/
  (20 <= size <= 48 /\ (c = red_color \/ c = darker_red)) \/
  (48 < size /\
   (c = red_color \/ c = lighter_red \/ c = darker_red \/ c = edge_red \/
    128 <= size /\ c = white_200)).
Proof.
  unfold Draw.getpixel. destruct (Draw.inside _ x y); [| discriminate].
  intros [= <-].
  destruct (fold_colour covers (Draw.drawn (create_geometric_icon size)) x y
                        (Draw.background (create_geometric_icon size))) as [-> | H].
  { left. now destruct (canvas size) as (_ & _ & ->). }
  right. rewrite fills in H.
  destruct (size <=? 19) eqn:E1; [| destruct (size <=? 48) eqn:E2].
  - left. split; [lia |]. destruct (16 <=? size) eqn:E; cbn [In] in H.
    + destruct H as [<- | [<- | [<- | [<- | []]]]]; [now left | right; split; [lia | reflexivity] ..].
    + destruct H as [<- | []]. now left.
  - right. left. split; [lia |]. cbn [In] in H.
    destruct H as [<- | [<- | [<- | []]]]; tauto.
  - right. right. split; [lia |].
    apply in_app_or in H as [H | H].
    + cbn [In] in H. destruct H as [<- | [<- | [<- | [<- | [<- | [<- | []]]]]]]; tauto.
    + destruct (128 <=? size) eqn:E; cbn [In] in H; [| contradiction].
      destruct H as [<- | [<- | []]]; (do 4 right; split; [lia | reflexivity]).
Qed.

(** X11 at the centre of the largest icon, with the rasteriser that paints
    whole bounding boxes. *)
Lemma pixel_palette_witness :
  Draw.getpixel Draw.bbox (create_geometric_icon 128) 64 64 = Some white_200 /\
  128 <= 128.
Proof.
  assert (Draw.getpixel Draw.bbox (create_geometric_icon 128) 64 64 = Some white_200) as H
    by (vm_compute; reflexivity).
  split; [exact H |].
  destruct (pixel_palette Draw.bbox 128 64 64 white_200 H)
    as [Hc | [[Hs _] | [[Hs _] | [_ [Hc | [Hc | [Hc | [Hc | [Hs _]]]]]]]]];
    try discriminate; try lia.
Defined.

End Icon_behaviour.
